(** * Vega content library: the sound file handle (Dependencies/content/src/API.cpp)

    A shallow embedding of [SoundFileHandle] and of the exported [sound*]
    functions.  The three decoders (dr_wav, dr_flac, stb_vorbis) and the file
    system are external to API.cpp; they are the fields of a [World].  Heap
    objects, the calls made to the decoders and undefined behaviour are
    explicit: a computation threads a [State] and may stop with a [Fault]. *)

From Stdlib Require Import ZArith Lia Ascii String.
From stdpp Require Import gmap strings list fin_maps.

Local Open Scope Z_scope.

(** ** Fixed-width integers *)

(** Conversion to an unsigned [w]-bit integer type. *)
Definition wrap (w x : Z) : Z := x mod 2 ^ w.

Definition to_u32 : Z -> Z := wrap 32.
Definition to_u64 : Z -> Z := wrap 64.

Definition in_range (lo hi x : Z) : Prop := lo <= x < hi.

(** ** Enumerations and the metadata struct *)

Inductive SoundError : Set :=
| NO_ERROR
| FILE_NOT_FOUND
| UNKNOWN_TYPE
| INVALID_FILE.

(** [int32_t(e)] for [enum class SoundError : int32_t]. *)
Definition SoundError_code (e : SoundError) : Z :=
  match e with
  | NO_ERROR => 0
  | FILE_NOT_FOUND => 1
  | UNKNOWN_TYPE => 2
  | INVALID_FILE => 3
  end.

#[global] Instance SoundError_eq_dec : EqDecision SoundError.
Proof. solve_decision. Defined.

Inductive FileType : Set :=
| TYPE_UNKNOWN
| TYPE_WAV
| TYPE_FLAC
| TYPE_VORBIS.

Definition FileType_code (t : FileType) : Z :=
  match t with
  | TYPE_UNKNOWN => 0
  | TYPE_WAV => 1
  | TYPE_FLAC => 2
  | TYPE_VORBIS => 3
  end.

#[global] Instance FileType_eq_dec : EqDecision FileType.
Proof. solve_decision. Defined.

Module SoundFileInfo.
Record t : Set := mk
  { totalFrames : Z   (* uint64_t *)
  ; sampleRate : Z    (* uint32_t *)
  ; channels : Z      (* uint32_t *)
  }.

(** Value initialisation, [info_{ }]. *)
Definition zero : t := mk 0 0 0.
End SoundFileInfo.

(** ** What the handle reads from the decoders' objects

    The decoders' headers are not part of API.cpp.  Each record has the
    fields that API.cpp reads, with the C types of dr_wav.h, dr_flac.h and
    stb_vorbis.c; [well_formed] says that a value lies within its type. *)

Module drwav.
Record t : Set := mk
  { totalPCMFrameCount : Z   (* drwav_uint64 *)
  ; sampleRate : Z           (* drwav_uint32 *)
  ; channels : Z             (* drwav_uint16 *)
  }.

Definition well_formed (w : t) : Prop :=
  in_range 0 (2 ^ 64) (totalPCMFrameCount w) /\
  in_range 0 (2 ^ 32) (sampleRate w) /\
  in_range 0 (2 ^ 16) (channels w).
End drwav.

Module drflac.
Record t : Set := mk
  { totalPCMFrameCount : Z   (* drflac_uint64 *)
  ; sampleRate : Z           (* drflac_uint32 *)
  ; channels : Z             (* drflac_uint8 *)
  }.

Definition well_formed (f : t) : Prop :=
  in_range 0 (2 ^ 64) (totalPCMFrameCount f) /\
  in_range 0 (2 ^ 32) (sampleRate f) /\
  in_range 0 (2 ^ 8) (channels f).
End drflac.

Module stb_vorbis.
(** [sample_rate] and [channels] are the two fields read from the
    [stb_vorbis_info] that [stb_vorbis_get_info] returns;
    [stream_length_in_samples] is the result of
    [stb_vorbis_stream_length_in_samples]. *)
Record t : Set := mk
  { sample_rate : Z                (* unsigned int *)
  ; channels : Z                   (* int *)
  ; stream_length_in_samples : Z   (* unsigned int *)
  }.

(** The fields lie within their C types, and the channel count, an [int],
    is a count: it is not negative. *)
Definition well_formed (v : t) : Prop :=
  in_range 0 (2 ^ 32) (sample_rate v) /\
  in_range 0 (2 ^ 31) (channels v) /\
  in_range 0 (2 ^ 32) (stream_length_in_samples v).
End stb_vorbis.

(** ** The handle *)

Definition loc : Set := positive.

(** A pointer; [None] is [nullptr]. *)
Definition ptr : Set := option loc.
Definition nullptr : ptr := None.

(** The anonymous union [handle_] is one pointer; its members [wav], [flac]
    and [vorbis] all name that same pointer. *)
Record SoundFileHandle : Set := mkHandle
  { type_ : FileType
  ; fileName_ : string
  ; handle_ : ptr
  ; info_ : SoundFileInfo.t
  ; lastError_ : SoundError
  }.

Definition set_type (t : FileType) (h : SoundFileHandle) : SoundFileHandle :=
  mkHandle t (fileName_ h) (handle_ h) (info_ h) (lastError_ h).
Definition set_handle (p : ptr) (h : SoundFileHandle) : SoundFileHandle :=
  mkHandle (type_ h) (fileName_ h) p (info_ h) (lastError_ h).
Definition set_info (i : SoundFileInfo.t) (h : SoundFileHandle) : SoundFileHandle :=
  mkHandle (type_ h) (fileName_ h) (handle_ h) i (lastError_ h).
Definition set_lastError (e : SoundError) (h : SoundFileHandle) : SoundFileHandle :=
  mkHandle (type_ h) (fileName_ h) (handle_ h) (info_ h) e.

(** The member functions of lines 153-157. *)
Definition type (h : SoundFileHandle) : FileType := type_ h.
Definition fileName (h : SoundFileHandle) : string := fileName_ h.
Definition info (h : SoundFileHandle) : SoundFileInfo.t := info_ h.
Definition hasError (h : SoundFileHandle) : bool :=
  negb (bool_decide (lastError_ h = NO_ERROR)).
Definition error (h : SoundFileHandle) : SoundError := lastError_ h.

(** ** Heap, call log and the computation monad *)

Inductive Obj : Set :=
| Raw_drwav                        (* a [drwav] that is not initialised *)
| Live_drwav (w : drwav.t)         (* a [drwav] after [drwav_init_file] *)
| Live_drflac (f : drflac.t)
| Live_vorbis (v : stb_vorbis.t)
| Raw_handle                       (* storage of a handle being constructed *)
| Obj_handle (h : SoundFileHandle).

Inductive Call : Set :=
| new_drwav (l : loc)
| delete_drwav (l : loc)
| call_drwav_init_file (l : loc) (ok : bool)
| call_drwav_uninit (l : loc)
| call_drflac_open_file (r : ptr)
| call_drflac_close (l : loc)
| call_stb_vorbis_open_filename (r : ptr)
| call_stb_vorbis_close (l : loc)
| new_SoundFileHandle (l : loc)
| delete_SoundFileHandle (l : loc).

Record State : Type := mkState
  { heap : gmap loc Obj
  ; log : list Call      (* oldest call first *)
  }.

Inductive Fault : Set :=
| NullDereference
| InvalidPointer      (* dangling, or not an object of the expected type *)
| DivisionByZero
| OutOfRange.         (* std::out_of_range from std::string::substr *)

Inductive Outcome (A : Type) : Type :=
| Done (a : A) (s : State)
| Stop (f : Fault).
Arguments Done {A} a s.
Arguments Stop {A} f.

Definition M (A : Type) : Type := State -> Outcome A.

#[global] Instance M_ret : MRet M := fun A a s => Done a s.
#[global] Instance M_bind : MBind M := fun A B k m s =>
  match m s with
  | Done a s' => k a s'
  | Stop f => Stop f
  end.
#[global] Instance M_fmap : FMap M := fun A B g m => a ← m; mret (g a).

Definition fault {A : Type} (f : Fault) : M A := fun _ => Stop f.
Definition get_heap : M (gmap loc Obj) := fun s => Done (heap s) s.
Definition put_heap (h : gmap loc Obj) : M unit :=
  fun s => Done tt (mkState h (log s)).
Definition emit (c : Call) : M unit :=
  fun s => Done tt (mkState (heap s) (log s ++ [c])).

(** Storage for a new object, at an address that is not in use. *)
Definition alloc (o : Obj) : M loc :=
  h ← get_heap;
  let l := fresh (dom h) in
  put_heap (<[l := o]> h);;
  mret l.

Definition load (p : ptr) : M Obj :=
  match p with
  | None => fault NullDereference
  | Some l =>
      h ← get_heap;
      match h !! l with
      | Some o => mret o
      | None => fault InvalidPointer
      end
  end.

Definition store (l : loc) (o : Obj) : M unit :=
  h ← get_heap; put_heap (<[l := o]> h).

Definition free (l : loc) : M unit :=
  h ← get_heap; put_heap (delete l h).

(** ** std::string *)

(** [s.find_last_of(c)]; [None] is [std::string::npos]. *)
Fixpoint find_last_of (s : string) (c : Ascii.ascii) : option nat :=
  match s with
  | EmptyString => None
  | String a s' =>
      match find_last_of s' c with
      | Some i => Some (S i)
      | None => if Ascii.eqb a c then Some O else None
      end
  end.

(** [s.substr(pos)]; [None] when [pos > s.size()], where the call throws. *)
Fixpoint substr (s : string) (pos : nat) : option string :=
  match pos, s with
  | O, _ => Some s
  | S n, String _ s' => substr s' n
  | S _, EmptyString => None
  end.

(** ** The file system and the decoders *)

(** What lies outside API.cpp: whether [std::ifstream fstm(file)] opens, and
    what each decoder makes of the file of that name ([None]: it rejects
    the file). *)
Record World : Type := mkWorld
  { ifstream_is_open : string -> bool
  ; wav_decoder : string -> option drwav.t
  ; flac_decoder : string -> option drflac.t
  ; vorbis_decoder : string -> option stb_vorbis.t
  }.

Definition World_well_formed (W : World) : Prop :=
  (forall f w, wav_decoder W f = Some w -> drwav.well_formed w) /\
  (forall f d, flac_decoder W f = Some d -> drflac.well_formed d) /\
  (forall f v, vorbis_decoder W f = Some v -> stb_vorbis.well_formed v).

Section Handle.

Variable W : World.

(** [new drwav] *)
Definition operator_new_drwav : M ptr :=
  l ← alloc Raw_drwav;
  emit (new_drwav l);;
  mret (Some l).

(** [delete p] for a [drwav*]: nothing on [nullptr]; the storage is released
    whether or not the decoder was uninitialised first. *)
Definition operator_delete_drwav (p : ptr) : M unit :=
  match p with
  | None => mret tt
  | Some l =>
      o ← load p;
      match o with
      | Raw_drwav | Live_drwav _ => free l;; emit (delete_drwav l)
      | _ => fault InvalidPointer
      end
  end.

(** Modelled from the spec: dr_wav is not part of API.cpp; a decoder offers
    "open by path", "native metadata fields" and "close".
    [drwav_init_file(pWav, filename, nullptr)] fills the caller's [drwav] when
    it accepts the file and leaves it as it was when it does not. *)
Definition drwav_init_file (pWav : ptr) (filename : string) : M bool :=
  o ← load pWav;
  match o, pWav with
  | Raw_drwav, Some l =>
      match wav_decoder W filename with
      | Some w =>
          store l (Live_drwav w);;
          emit (call_drwav_init_file l true);;
          mret true
      | None =>
          emit (call_drwav_init_file l false);;
          mret false
      end
  | _, _ => fault InvalidPointer
  end.

(** Modelled from the spec: the "close" of dr_wav, [drwav_uninit(pWav)]; the
    decoder lets go of the file, the storage stays with the caller. *)
Definition drwav_uninit (pWav : ptr) : M unit :=
  o ← load pWav;
  match o, pWav with
  | Live_drwav _, Some l =>
      store l Raw_drwav;;
      emit (call_drwav_uninit l)
  | _, _ => fault InvalidPointer
  end.

(** Modelled from the spec: dr_flac is not part of API.cpp.
    [drflac_open_file(filename, nullptr)] returns a new decoder object, or
    [nullptr] when it rejects the file. *)
Definition drflac_open_file (filename : string) : M ptr :=
  match flac_decoder W filename with
  | Some f =>
      l ← alloc (Live_drflac f);
      emit (call_drflac_open_file (Some l));;
      mret (Some l)
  | None =>
      emit (call_drflac_open_file nullptr);;
      mret nullptr
  end.

(** Modelled from the spec: the "close" of dr_flac, [drflac_close(pFlac)],
    which frees the decoder object. *)
Definition drflac_close (pFlac : ptr) : M unit :=
  o ← load pFlac;
  match o, pFlac with
  | Live_drflac _, Some l =>
      free l;;
      emit (call_drflac_close l)
  | _, _ => fault InvalidPointer
  end.

(** Modelled from the spec: stb_vorbis is not part of API.cpp.
    [stb_vorbis_open_filename(filename, &err, nullptr)] returns a new decoder
    object, or [nullptr] when it rejects the file. *)
Definition stb_vorbis_open_filename (filename : string) : M ptr :=
  match vorbis_decoder W filename with
  | Some v =>
      l ← alloc (Live_vorbis v);
      emit (call_stb_vorbis_open_filename (Some l));;
      mret (Some l)
  | None =>
      emit (call_stb_vorbis_open_filename nullptr);;
      mret nullptr
  end.

(** Modelled from the spec: the "close" of stb_vorbis, [stb_vorbis_close(p)],
    which frees the decoder object. *)
Definition stb_vorbis_close (p : ptr) : M unit :=
  o ← load p;
  match o, p with
  | Live_vorbis _, Some l =>
      free l;;
      emit (call_stb_vorbis_close l)
  | _, _ => fault InvalidPointer
  end.

(** *** The constructor, lines 59-137 *)

(** The conditional expression of lines 81-84. *)
Definition type_of_ext (ext : string) : FileType :=
  if String.eqb ext ".wav" then TYPE_WAV
  else if String.eqb ext ".flac" then TYPE_FLAC
  else if String.eqb ext ".ogg" then TYPE_VORBIS
  else TYPE_UNKNOWN.

(** "Initialize the file", lines 92-112. *)
Definition initialize_file (file : string) (this : SoundFileHandle)
  : M SoundFileHandle :=
  match type_ this with
  | TYPE_WAV =>
      p ← operator_new_drwav;
      let this := set_handle p this in
      ok ← drwav_init_file (handle_ this) file;
      if negb ok then
        operator_delete_drwav (handle_ this);;
        mret (set_lastError INVALID_FILE (set_handle nullptr this))
      else mret this
  | TYPE_FLAC =>
      p ← drflac_open_file file;
      let this := set_handle p this in
      if bool_decide (handle_ this = nullptr)
      then mret (set_lastError INVALID_FILE this)
      else mret this
  | TYPE_VORBIS =>
      p ← stb_vorbis_open_filename file;
      let this := set_handle p this in
      if bool_decide (handle_ this = nullptr)
      then mret (set_lastError INVALID_FILE this)
      else mret this
  | TYPE_UNKNOWN => mret this
  end.

(** "Load file information", lines 118-134.  In [count / info.channels] the
    left operand is an [unsigned int] and the right one an [int], which is
    converted to [unsigned int]; the quotient is then widened to 64 bits.
    Division by zero is undefined. *)
Definition load_file_information (this : SoundFileHandle) : M SoundFileHandle :=
  match type_ this with
  | TYPE_WAV =>
      o ← load (handle_ this);
      match o with
      | Live_drwav w =>
          mret (set_info
                  (SoundFileInfo.mk
                     (to_u64 (drwav.totalPCMFrameCount w))
                     (to_u32 (drwav.sampleRate w))
                     (to_u32 (drwav.channels w))) this)
      | _ => fault InvalidPointer
      end
  | TYPE_FLAC =>
      o ← load (handle_ this);
      match o with
      | Live_drflac f =>
          mret (set_info
                  (SoundFileInfo.mk
                     (to_u64 (drflac.totalPCMFrameCount f))
                     (to_u32 (drflac.sampleRate f))
                     (to_u32 (drflac.channels f))) this)
      | _ => fault InvalidPointer
      end
  | _ =>
      o ← load (handle_ this);
      match o with
      | Live_vorbis v =>
          let count := stb_vorbis.stream_length_in_samples v in
          let divisor := to_u32 (stb_vorbis.channels v) in
          if divisor =? 0 then fault DivisionByZero
          else
            mret (set_info
                    (SoundFileInfo.mk
                       (to_u64 (count / divisor))
                       (to_u32 (stb_vorbis.sample_rate v))
                       (to_u32 (stb_vorbis.channels v))) this)
      | _ => fault InvalidPointer
      end
  end.

Definition SoundFileHandle_ctor (file : string) : M SoundFileHandle :=
  let this := mkHandle TYPE_UNKNOWN file nullptr SoundFileInfo.zero NO_ERROR in
  if negb (ifstream_is_open W file) then
    mret (set_lastError FILE_NOT_FOUND this)
  else
    match find_last_of file "."%char with
    | None => mret (set_lastError UNKNOWN_TYPE this)
    | Some extPos =>
        match substr file extPos with
        | None => fault OutOfRange
        | Some ext =>
            let this := set_type (type_of_ext ext) this in
            if bool_decide (type_ this = TYPE_UNKNOWN) then
              mret (set_lastError UNKNOWN_TYPE this)
            else
              this ← initialize_file file this;
              if bool_decide (lastError_ this = INVALID_FILE) then mret this
              else
                this ← load_file_information this;
                mret (set_lastError NO_ERROR this)
        end
    end.

(** *** The destructor, lines 138-150 *)

Definition SoundFileHandle_dtor (this : SoundFileHandle) : M unit :=
  if bool_decide (type_ this = TYPE_WAV) && bool_decide (handle_ this <> nullptr)
  then
    drwav_uninit (handle_ this);;
    operator_delete_drwav (handle_ this)
  else if bool_decide (type_ this = TYPE_FLAC)
          && bool_decide (handle_ this <> nullptr)
  then drflac_close (handle_ this)
  else if bool_decide (type_ this = TYPE_VORBIS)
          && bool_decide (handle_ this <> nullptr)
  then stb_vorbis_close (handle_ this)
  else mret tt.

(** *** The exported functions, lines 174-234 *)

(** [file->] for a [SoundFileHandle* file]. *)
Definition deref (file : ptr) : M SoundFileHandle :=
  o ← load file;
  match o with
  | Obj_handle h => mret h
  | _ => fault InvalidPointer
  end.

(** [new SoundFileHandle(fileName)]: storage first, then the constructor. *)
Definition operator_new_SoundFileHandle (fileName : string) : M ptr :=
  l ← alloc Raw_handle;
  emit (new_SoundFileHandle l);;
  h ← SoundFileHandle_ctor fileName;
  store l (Obj_handle h);;
  mret (Some l).

(** [delete p] for a [SoundFileHandle*]: nothing on [nullptr], otherwise the
    destructor and then the release of the storage. *)
Definition operator_delete_SoundFileHandle (p : ptr) : M unit :=
  match p with
  | None => mret tt
  | Some l =>
      h ← deref p;
      SoundFileHandle_dtor h;;
      free l;;
      emit (delete_SoundFileHandle l)
  end.

Definition soundGetFileType (file : ptr) : M Z :=
  h ← deref file; mret (FileType_code (type h)).

Definition soundGetFileName (file : ptr) : M string :=
  h ← deref file; mret (fileName h).

Definition soundGetError (file : ptr) : M Z :=
  h ← deref file; mret (SoundError_code (error h)).

Definition soundGetFrameCount (file : ptr) : M Z :=
  h ← deref file; mret (SoundFileInfo.totalFrames (info h)).

Definition soundGetSampleRate (file : ptr) : M Z :=
  h ← deref file; mret (SoundFileInfo.sampleRate (info h)).

Definition soundGetChannelCount (file : ptr) : M Z :=
  h ← deref file; mret (SoundFileInfo.channels (info h)).

(** The three out-parameters are the three components of the result. *)
Definition soundGetInfo (file : ptr) : M (Z * Z * Z) :=
  frames ← (h ← deref file; mret (SoundFileInfo.totalFrames (info h)));
  rate ← (h ← deref file; mret (SoundFileInfo.sampleRate (info h)));
  channels ← (h ← deref file; mret (SoundFileInfo.channels (info h)));
  mret (frames, rate, channels).

(** The result is the returned pointer and the value written to [*error]. *)
Definition soundOpenFile (fileName : string) : M (ptr * Z) :=
  handle ← operator_new_SoundFileHandle fileName;
  error ← (h ← deref handle; mret (SoundError_code (error h)));
  failed ← (h ← deref handle; mret (hasError h));
  if (failed : bool) then
    operator_delete_SoundFileHandle handle;;
    mret (nullptr, error)
  else mret (handle, error).

Definition soundCloseFile (file : ptr) : M unit :=
  operator_delete_SoundFileHandle file.

End Handle.

(** ** Vocabulary of the specification *)

(** The file-extension suffix of a path as the constructor computes it: the
    part from the last ['.'] on. *)
Definition extension (path : string) : option string :=
  match find_last_of path "."%char with
  | None => None
  | Some extPos => substr path extPos
  end.

(** [ends_with suffix s]: [s] is some stem followed by [suffix]. *)
Fixpoint ends_with (suffix s : string) : bool :=
  String.eqb s suffix ||
  match s with
  | EmptyString => false
  | String _ s' => ends_with suffix s'
  end.

(** The mapping of the specification: [.wav -> Wav], [.flac -> Flac],
    [.ogg -> Vorbis], anything else [Unknown]. *)
Definition format_by_suffix (path : string) : FileType :=
  if ends_with ".wav" path then TYPE_WAV
  else if ends_with ".flac" path then TYPE_FLAC
  else if ends_with ".ogg" path then TYPE_VORBIS
  else TYPE_UNKNOWN.

(** Whether the decoder for format [t] accepts the file. *)
Definition backend_accepts (W : World) (t : FileType) (file : string) : bool :=
  match t with
  | TYPE_WAV => bool_decide (is_Some (wav_decoder W file))
  | TYPE_FLAC => bool_decide (is_Some (flac_decoder W file))
  | TYPE_VORBIS => bool_decide (is_Some (vorbis_decoder W file))
  | TYPE_UNKNOWN => false
  end.

(** The error policy of the specification: file access, then format
    detection, then the backend; the first failure wins. *)
Definition first_failure (W : World) (file : string) : SoundError :=
  if negb (ifstream_is_open W file) then FILE_NOT_FOUND
  else if bool_decide (format_by_suffix file = TYPE_UNKNOWN) then UNKNOWN_TYPE
  else if negb (backend_accepts W (format_by_suffix file) file) then INVALID_FILE
  else NO_ERROR.

(** A handle whose construction failed: no resource, zero metadata. *)
Definition failed_handle (t : FileType) (file : string) (e : SoundError)
  : SoundFileHandle :=
  mkHandle t file nullptr SoundFileInfo.zero e.

(** The runs of the constructor that return, case by case: the handle built
    and the state left behind.  [ctor_constructs] below proves that these are
    exactly the constructor's returns. *)
Inductive constructs (W : World) (file : string) (s : State)
  : SoundFileHandle -> State -> Prop :=
| constructs_not_found :
    ifstream_is_open W file = false ->
    constructs W file s (failed_handle TYPE_UNKNOWN file FILE_NOT_FOUND) s
| constructs_unknown :
    ifstream_is_open W file = true ->
    format_by_suffix file = TYPE_UNKNOWN ->
    constructs W file s (failed_handle TYPE_UNKNOWN file UNKNOWN_TYPE) s
| constructs_wav_invalid (l : loc) :
    ifstream_is_open W file = true ->
    format_by_suffix file = TYPE_WAV ->
    wav_decoder W file = None ->
    l = fresh (dom (heap s)) ->
    constructs W file s (failed_handle TYPE_WAV file INVALID_FILE)
      (mkState (heap s)
         (log s ++ [new_drwav l; call_drwav_init_file l false; delete_drwav l]))
| constructs_wav (l : loc) (w : drwav.t) :
    ifstream_is_open W file = true ->
    format_by_suffix file = TYPE_WAV ->
    wav_decoder W file = Some w ->
    l = fresh (dom (heap s)) ->
    constructs W file s
      (mkHandle TYPE_WAV file (Some l)
         (SoundFileInfo.mk (to_u64 (drwav.totalPCMFrameCount w))
            (to_u32 (drwav.sampleRate w)) (to_u32 (drwav.channels w)))
         NO_ERROR)
      (mkState (<[l := Live_drwav w]> (heap s))
         (log s ++ [new_drwav l; call_drwav_init_file l true]))
| constructs_flac_invalid :
    ifstream_is_open W file = true ->
    format_by_suffix file = TYPE_FLAC ->
    flac_decoder W file = None ->
    constructs W file s (failed_handle TYPE_FLAC file INVALID_FILE)
      (mkState (heap s) (log s ++ [call_drflac_open_file nullptr]))
| constructs_flac (l : loc) (d : drflac.t) :
    ifstream_is_open W file = true ->
    format_by_suffix file = TYPE_FLAC ->
    flac_decoder W file = Some d ->
    l = fresh (dom (heap s)) ->
    constructs W file s
      (mkHandle TYPE_FLAC file (Some l)
         (SoundFileInfo.mk (to_u64 (drflac.totalPCMFrameCount d))
            (to_u32 (drflac.sampleRate d)) (to_u32 (drflac.channels d)))
         NO_ERROR)
      (mkState (<[l := Live_drflac d]> (heap s))
         (log s ++ [call_drflac_open_file (Some l)]))
| constructs_vorbis_invalid :
    ifstream_is_open W file = true ->
    format_by_suffix file = TYPE_VORBIS ->
    vorbis_decoder W file = None ->
    constructs W file s (failed_handle TYPE_VORBIS file INVALID_FILE)
      (mkState (heap s) (log s ++ [call_stb_vorbis_open_filename nullptr]))
| constructs_vorbis (l : loc) (v : stb_vorbis.t) :
    ifstream_is_open W file = true ->
    format_by_suffix file = TYPE_VORBIS ->
    vorbis_decoder W file = Some v ->
    to_u32 (stb_vorbis.channels v) <> 0 ->
    l = fresh (dom (heap s)) ->
    constructs W file s
      (mkHandle TYPE_VORBIS file (Some l)
         (SoundFileInfo.mk
            (to_u64 (stb_vorbis.stream_length_in_samples v
                     / to_u32 (stb_vorbis.channels v)))
            (to_u32 (stb_vorbis.sample_rate v))
            (to_u32 (stb_vorbis.channels v)))
         NO_ERROR)
      (mkState (<[l := Live_vorbis v]> (heap s))
         (log s ++ [call_stb_vorbis_open_filename (Some l)])).

(** The decoder object a handle owns: [handle_] points to a live object of
    the variant that [type_] names. *)
Definition variant_of (o : Obj) : FileType :=
  match o with
  | Live_drwav _ => TYPE_WAV
  | Live_drflac _ => TYPE_FLAC
  | Live_vorbis _ => TYPE_VORBIS
  | _ => TYPE_UNKNOWN
  end.

Definition holds_resource (s : State) (h : SoundFileHandle) : Prop :=
  exists l o, handle_ h = Some l /\ heap s !! l = Some o /\
              variant_of o = type_ h /\ type_ h <> TYPE_UNKNOWN.

(** ** Counting decoder calls *)

(** A call that opened a decoder of format [t]. *)
Definition opens (t : FileType) (c : Call) : bool :=
  match t, c with
  | TYPE_WAV, call_drwav_init_file _ true => true
  | TYPE_FLAC, call_drflac_open_file (Some _) => true
  | TYPE_VORBIS, call_stb_vorbis_open_filename (Some _) => true
  | _, _ => false
  end.

(** A call of the teardown routine of format [t]'s decoder. *)
Definition closes (t : FileType) (c : Call) : bool :=
  match t, c with
  | TYPE_WAV, call_drwav_uninit _ => true
  | TYPE_FLAC, call_drflac_close _ => true
  | TYPE_VORBIS, call_stb_vorbis_close _ => true
  | _, _ => false
  end.

Definition open_count (t : FileType) (cs : list Call) : nat :=
  length (List.filter (opens t) cs).

Definition close_count (t : FileType) (cs : list Call) : nat :=
  length (List.filter (closes t) cs).

(** What the destructor of [h] calls when [h] holds a resource. *)
Definition teardown_calls (h : SoundFileHandle) : list Call :=
  match handle_ h, type_ h with
  | Some l, TYPE_WAV => [call_drwav_uninit l; delete_drwav l]
  | Some l, TYPE_FLAC => [call_drflac_close l]
  | Some l, TYPE_VORBIS => [call_stb_vorbis_close l]
  | _, _ => []
  end.

(** How many decoders of format [t] the handle [h] holds: one if [h] holds
    a resource and is of type [t], none otherwise. *)
Definition held (h : SoundFileHandle) (t : FileType) : nat :=
  match handle_ h with
  | Some _ => if bool_decide (t = type_ h) then 1%nat else 0%nat
  | None => 0%nat
  end.

(** The heap once the decoder object of [h] is gone. *)
Definition released (h : SoundFileHandle) (m : gmap loc Obj) : gmap loc Obj :=
  match handle_ h with
  | Some l => delete l m
  | None => m
  end.

(** The state in which the constructor runs inside [soundOpenFile]: the
    storage of the handle is already there. *)
Definition under_construction (s : State) : State :=
  let l := fresh (dom (heap s)) in
  mkState (<[l := Raw_handle]> (heap s)) (log s ++ [new_SoundFileHandle l]).

(** ** Queries *)

Inductive Query : Set :=
| Q_type | Q_fileName | Q_error | Q_frameCount | Q_sampleRate | Q_channelCount
| Q_info.

Inductive Answer : Set :=
| A_int (z : Z)
| A_string (s : string)
| A_info (frames rate channels : Z).

(** The exported accessor for each query. *)
Definition ask (q : Query) (file : ptr) : M Answer :=
  match q with
  | Q_type => A_int <$> soundGetFileType file
  | Q_fileName => A_string <$> soundGetFileName file
  | Q_error => A_int <$> soundGetError file
  | Q_frameCount => A_int <$> soundGetFrameCount file
  | Q_sampleRate => A_int <$> soundGetSampleRate file
  | Q_channelCount => A_int <$> soundGetChannelCount file
  | Q_info => (fun '(f, r, c) => A_info f r c) <$> soundGetInfo file
  end.

(** One query after the other on the same pointer. *)
Fixpoint ask_all (qs : list Query) (file : ptr) : M (list Answer) :=
  match qs with
  | [] => mret []
  | q :: qs' =>
      a ← ask q file;
      rest ← ask_all qs' file;
      mret (a :: rest)
  end.

(** The answer in terms of the member functions of the handle. *)
Definition answer (h : SoundFileHandle) (q : Query) : Answer :=
  match q with
  | Q_type => A_int (FileType_code (type h))
  | Q_fileName => A_string (fileName h)
  | Q_error => A_int (SoundError_code (error h))
  | Q_frameCount => A_int (SoundFileInfo.totalFrames (info h))
  | Q_sampleRate => A_int (SoundFileInfo.sampleRate (info h))
  | Q_channelCount => A_int (SoundFileInfo.channels (info h))
  | Q_info =>
      A_info (SoundFileInfo.totalFrames (info h))
        (SoundFileInfo.sampleRate (info h)) (SoundFileInfo.channels (info h))
  end.

(** ** Example worlds *)

Definition empty_state : State := mkState ∅ [].

(** Two files cannot be opened; one file of each format decodes. *)
Definition example_world : World :=
  mkWorld
    (fun f => negb (String.eqb f "missing.wav" || String.eqb f "missing.txt"))
    (fun f => if String.eqb f "drum.wav"
              then Some (drwav.mk 96000 48000 1) else None)
    (fun f => if String.eqb f "tune.flac"
              then Some (drflac.mk 1000 44100 2) else None)
    (fun f => if String.eqb f "song.ogg"
              then Some (stb_vorbis.mk 44100 2 88200) else None).

(** The state after [soundOpenFile example_world "tune.flac"] from the empty
    state, and the handle at address 1 in it. *)
Definition opened_flac : SoundFileHandle :=
  mkHandle TYPE_FLAC "tune.flac" (Some 2%positive)
    (SoundFileInfo.mk 1000 44100 2) NO_ERROR.

Definition opened_flac_state : State :=
  mkState
    {[ 1%positive := Obj_handle opened_flac;
       2%positive := Live_drflac (drflac.mk 1000 44100 2) ]}
    [new_SoundFileHandle 1%positive; call_drflac_open_file (Some 2%positive)].

(** A world whose Vorbis decoder reports a stream without channels. *)
Definition degenerate_world : World :=
  mkWorld (fun _ => true) (fun _ => None) (fun _ => None)
    (fun _ => Some (stb_vorbis.mk 44100 0 0)).

(** Modelled from the spec: dr_wav, dr_flac and stb_vorbis are not part of
    API.cpp, which copies what they report without looking at it.  The
    specification says of them that "well-formed containers never report
    zero": a decoder that accepts a file reports a sample rate and a channel
    count of at least one. *)
Definition never_reports_zero (W : World) : Prop :=
  (forall f w, wav_decoder W f = Some w ->
               1 <= drwav.sampleRate w /\ 1 <= drwav.channels w) /\
  (forall f d, flac_decoder W f = Some d ->
               1 <= drflac.sampleRate d /\ 1 <= drflac.channels d) /\
  (forall f v, vorbis_decoder W f = Some v ->
               1 <= stb_vorbis.sample_rate v /\ 1 <= stb_vorbis.channels v).

(** The metadata of the specification for a file of format [t]: copied for
    Wav and Flac, total samples divided by the channel count for Vorbis. *)
Definition normalized_metadata (W : World) (t : FileType) (file : string)
  : option SoundFileInfo.t :=
  match t with
  | TYPE_WAV =>
      w ← wav_decoder W file;
      Some (SoundFileInfo.mk (drwav.totalPCMFrameCount w) (drwav.sampleRate w)
              (drwav.channels w))
  | TYPE_FLAC =>
      d ← flac_decoder W file;
      Some (SoundFileInfo.mk (drflac.totalPCMFrameCount d) (drflac.sampleRate d)
              (drflac.channels d))
  | TYPE_VORBIS =>
      v ← vorbis_decoder W file;
      Some (SoundFileInfo.mk
              (stb_vorbis.stream_length_in_samples v / stb_vorbis.channels v)
              (stb_vorbis.sample_rate v) (stb_vorbis.channels v))
  | TYPE_UNKNOWN => None
  end.

(** ** Further vocabulary *)

(** The backend a logged call belongs to; [TYPE_UNKNOWN] for the [new] and
    [delete] of the handle itself. *)
Definition backend_of (c : Call) : FileType :=
  match c with
  | new_drwav _ | delete_drwav _ | call_drwav_init_file _ _
  | call_drwav_uninit _ => TYPE_WAV
  | call_drflac_open_file _ | call_drflac_close _ => TYPE_FLAC
  | call_stb_vorbis_open_filename _ | call_stb_vorbis_close _ => TYPE_VORBIS
  | new_SoundFileHandle _ | delete_SoundFileHandle _ => TYPE_UNKNOWN
  end.

(** [p] points to a handle [h] that is consistent with the heap: [h] holds no
    resource, or a live decoder object of its own type. *)
Definition open_handle (s : State) (p : loc) (h : SoundFileHandle) : Prop :=
  heap s !! p = Some (Obj_handle h) /\
  (handle_ h = nullptr \/ holds_resource s h).

(** A world whose Vorbis decoder reports a negative [int] channel count. *)
Definition negative_world : World :=
  mkWorld (fun _ => true) (fun _ => None) (fun _ => None)
    (fun _ => Some (stb_vorbis.mk 44100 (-2) 88200)).

(** A world in which every file opens and every decoder accepts it. *)
Definition permissive_world : World :=
  mkWorld (fun _ => true)
    (fun _ => Some (drwav.mk 96000 48000 1))
    (fun _ => Some (drflac.mk 1000 44100 2))
    (fun _ => Some (stb_vorbis.mk 44100 2 88201)).

(** * Proofs *)

(** ** Strings: the extension and the suffix mapping agree *)

Lemma find_last_of_substr (s : string) (c : Ascii.ascii) (i : nat) :
  find_last_of s c = Some i -> is_Some (substr s i).
Proof.
  revert i; induction s as [|a s IH]; intros i; simpl; [discriminate|].
  destruct (find_last_of s c) as [j|] eqn:E.
  - intros [= <-]. simpl. by apply IH.
  - destruct (Ascii.eqb a c); [|discriminate].
    intros [= <-]. by eexists.
Qed.

Lemma extension_None (s : string) :
  extension s = None <-> find_last_of s "."%char = None.
Proof.
  unfold extension. destruct (find_last_of s ".") as [i|] eqn:E; [|done].
  destruct (find_last_of_substr _ _ _ E) as [e ->]. split; discriminate.
Qed.

Lemma extension_String (a : Ascii.ascii) (s : string) :
  extension (String a s) =
  match extension s with
  | Some e => Some e
  | None => if Ascii.eqb a "."%char then Some (String a s) else None
  end.
Proof.
  unfold extension. simpl.
  destruct (find_last_of s ".") as [i|] eqn:E.
  - simpl. by destruct (find_last_of_substr _ _ _ E) as [e ->].
  - by destruct (Ascii.eqb a ".").
Qed.

Lemma ends_with_eq (suffix s : string) :
  ends_with suffix s =
  String.eqb s suffix ||
  match s with
  | EmptyString => false
  | String _ s' => ends_with suffix s'
  end.
Proof. by destruct s. Qed.

(** A suffix that is a ['.'] followed by characters other than ['.'] ends the
    path exactly when it is the path's extension. *)
Lemma extension_ends_with (e s : string) :
  find_last_of e "."%char = None ->
  extension s = Some (String "."%char e) <-> ends_with (String "."%char e) s = true.
Proof.
  intros He. induction s as [|a s IH].
  - simpl. split; discriminate.
  - rewrite extension_String.
    rewrite (ends_with_eq _ (String a s)).
    destruct (extension s) as [x|] eqn:Ex.
    + assert (String.eqb (String a s) (String "." e) = false) as ->.
      { apply String.eqb_neq. intros [= -> ->].
        apply extension_None in He. congruence. }
      simpl. exact IH.
    + assert (ends_with (String "." e) s = false) as ->.
      { destruct (ends_with (String "." e) s); [|done].
        discriminate (proj2 IH eq_refl). }
      rewrite orb_false_r. split.
      * destruct (Ascii.eqb_spec a ".") as [->|]; [|discriminate].
        intros [= ->]. by apply String.eqb_eq.
      * intros [= -> ->]%String.eqb_eq. by simpl.
Qed.

Lemma ends_with_stem (suffix s : string) :
  ends_with suffix s = true <-> exists stem, s = (stem +:+ suffix)%string.
Proof.
  induction s as [|a s IH]; rewrite ends_with_eq.
  - rewrite orb_false_r, String.eqb_eq. split.
    + intros <-. by exists ""%string.
    + intros [[|b stem] H]; simpl in H; [done|discriminate].
  - rewrite orb_true_iff, String.eqb_eq, IH. split.
    + intros [<-|[stem ->]]; [by exists ""%string|by exists (String a stem)].
    + intros [[|b stem] H]; simpl in H; [by left|].
      injection H as -> ->. right. by eexists.
Qed.

(** The type the constructor detects (lines 75-84) is the one the suffix
    mapping gives. *)
Lemma type_of_extension (path : string) :
  match extension path with
  | Some ext => type_of_ext ext
  | None => TYPE_UNKNOWN
  end = format_by_suffix path.
Proof.
  unfold format_by_suffix, type_of_ext.
  pose proof (extension_ends_with "wav" path eq_refl) as Hw.
  pose proof (extension_ends_with "flac" path eq_refl) as Hf.
  pose proof (extension_ends_with "ogg" path eq_refl) as Ho.
  destruct (extension path) as [ext|].
  - destruct (String.eqb_spec ext ".wav") as [->|Nw].
    { by rewrite (proj1 Hw eq_refl). }
    destruct (ends_with ".wav" path); [by destruct Nw; apply (inj Some), Hw|].
    destruct (String.eqb_spec ext ".flac") as [->|Nf].
    { by rewrite (proj1 Hf eq_refl). }
    destruct (ends_with ".flac" path); [by destruct Nf; apply (inj Some), Hf|].
    destruct (String.eqb_spec ext ".ogg") as [->|No].
    { by rewrite (proj1 Ho eq_refl). }
    destruct (ends_with ".ogg" path); [by destruct No; apply (inj Some), Ho|done].
  - destruct (ends_with ".wav" path); [discriminate (proj2 Hw eq_refl)|].
    destruct (ends_with ".flac" path); [discriminate (proj2 Hf eq_refl)|].
    destruct (ends_with ".ogg" path); [discriminate (proj2 Ho eq_refl)|done].
Qed.

Lemma ends_with_exclusive (path e1 e2 : string) :
  find_last_of e1 "."%char = None ->
  find_last_of e2 "."%char = None ->
  ends_with (String "."%char e1) path = true ->
  ends_with (String "."%char e2) path = true ->
  e1 = e2.
Proof.
  intros H1 H2 E1%extension_ends_with E2%extension_ends_with; [|done..].
  congruence.
Qed.

(** In terms of stems: a path has format WAV, FLAC or VORBIS exactly when it
    is some stem followed by [.wav], [.flac] or [.ogg]. *)
Lemma format_by_suffix_stem (path : string) :
  (format_by_suffix path = TYPE_WAV <->
   exists stem, path = (stem +:+ ".wav")%string) /\
  (format_by_suffix path = TYPE_FLAC <->
   exists stem, path = (stem +:+ ".flac")%string) /\
  (format_by_suffix path = TYPE_VORBIS <->
   exists stem, path = (stem +:+ ".ogg")%string).
Proof.
  rewrite <- !ends_with_stem. unfold format_by_suffix.
  destruct (ends_with ".wav" path) eqn:Ew, (ends_with ".flac" path) eqn:Ef,
    (ends_with ".ogg" path) eqn:Eo;
    try discriminate (ends_with_exclusive path "wav" "flac" eq_refl eq_refl Ew Ef);
    try discriminate (ends_with_exclusive path "wav" "ogg" eq_refl eq_refl Ew Eo);
    try discriminate (ends_with_exclusive path "flac" "ogg" eq_refl eq_refl Ef Eo);
    by repeat split.
Qed.

(** ** Running a computation *)

Lemma fresh_heap (s : State) : heap s !! fresh (dom (heap s)) = None.
Proof. apply not_elem_of_dom, is_fresh. Qed.

Lemma delete_fresh (s : State) : delete (fresh (dom (heap s))) (heap s) = heap s.
Proof. apply delete_id, fresh_heap. Qed.

Lemma bind_Done {A B : Type} (m : M A) (k : A -> M B) (s s' : State) (a : A) :
  m s = Done a s' -> (m ≫= k) s = k a s'.
Proof. unfold mbind, M_bind. by intros ->. Qed.

Ltac run :=
  cbv beta iota delta
    [mbind mret M_bind M_ret fault alloc load store free emit get_heap put_heap];
  simpl.

Ltac heap_simpl :=
  repeat progress
    (rewrite ?lookup_insert_eq, ?insert_insert_eq, ?delete_insert_eq,
       ?delete_fresh, ?fresh_heap, <- ?app_assoc; simpl).

Section Construction.

Variable W : World.

(** *** The constructor *)

(** The constructor with the detection of lines 75-88 replaced by the suffix
    mapping; [substr] never throws there. *)
Lemma ctor_by_suffix (file : string) (s : State) :
  SoundFileHandle_ctor W file s =
  if negb (ifstream_is_open W file) then
    Done (failed_handle TYPE_UNKNOWN file FILE_NOT_FOUND) s
  else if bool_decide (format_by_suffix file = TYPE_UNKNOWN) then
    Done (failed_handle TYPE_UNKNOWN file UNKNOWN_TYPE) s
  else
    (this ← initialize_file W file
              (mkHandle (format_by_suffix file) file nullptr
                 SoundFileInfo.zero NO_ERROR);
     if bool_decide (lastError_ this = INVALID_FILE) then mret this
     else
       this ← load_file_information this;
       mret (set_lastError NO_ERROR this)) s.
Proof.
  unfold SoundFileHandle_ctor.
  destruct (ifstream_is_open W file); simpl; [|done].
  pose proof (type_of_extension file) as Ht. unfold extension in Ht.
  destruct (find_last_of file ".") as [extPos|] eqn:E.
  - destruct (find_last_of_substr _ _ _ E) as [ext Hext].
    rewrite Hext in *. rewrite Ht. unfold set_type; simpl.
    case_bool_decide as Hu; [by rewrite Hu|done].
  - by rewrite <- Ht.
Qed.

Lemma constructs_ctor (file : string) (s s' : State) (h : SoundFileHandle) :
  constructs W file s h s' -> SoundFileHandle_ctor W file s = Done h s'.
Proof.
  intros C; rewrite ctor_by_suffix.
  destruct C as [Ho|Ho Ht|l Ho Ht Hd ->|l w Ho Ht Hd ->|Ho Ht Hd|l d Ho Ht Hd ->
                |Ho Ht Hd|l v Ho Ht Hd Hz ->];
    rewrite Ho; simpl; [done|rewrite Ht..]; simpl; [done|..].
  all: unfold initialize_file, load_file_information, operator_new_drwav,
         drwav_init_file, operator_delete_drwav, drflac_open_file,
         stb_vorbis_open_filename; run; heap_simpl; rewrite Hd; run; heap_simpl;
       try done.
  by rewrite (proj2 (Z.eqb_neq _ _) Hz).
Qed.

Lemma ctor_division_by_zero (file : string) (s : State) (v : stb_vorbis.t) :
  ifstream_is_open W file = true ->
  format_by_suffix file = TYPE_VORBIS ->
  vorbis_decoder W file = Some v ->
  to_u32 (stb_vorbis.channels v) = 0 ->
  SoundFileHandle_ctor W file s = Stop DivisionByZero.
Proof.
  intros Ho Ht Hd Hz. rewrite ctor_by_suffix, Ho, Ht. simpl.
  unfold initialize_file, load_file_information, stb_vorbis_open_filename.
  run. rewrite Hd. run. heap_simpl. by rewrite Hz.
Qed.

(** Every run either returns as [constructs] says or divides by zero. *)
Lemma ctor_cases (file : string) (s : State) :
  (exists h s', constructs W file s h s') \/
  (exists v, ifstream_is_open W file = true /\
             format_by_suffix file = TYPE_VORBIS /\
             vorbis_decoder W file = Some v /\
             to_u32 (stb_vorbis.channels v) = 0).
Proof.
  destruct (ifstream_is_open W file) eqn:Ho;
    [|left; do 2 eexists; by apply constructs_not_found].
  destruct (format_by_suffix file) eqn:Ht.
  - left. do 2 eexists. by apply constructs_unknown.
  - left. destruct (wav_decoder W file) as [w|] eqn:Hd; do 2 eexists.
    + by eapply constructs_wav.
    + by eapply constructs_wav_invalid.
  - left. destruct (flac_decoder W file) as [d|] eqn:Hd; do 2 eexists.
    + by eapply constructs_flac.
    + by eapply constructs_flac_invalid.
  - destruct (vorbis_decoder W file) as [v|] eqn:Hd.
    + destruct (decide (to_u32 (stb_vorbis.channels v) = 0)) as [Hz|Hz].
      * right. by exists v.
      * left. do 2 eexists. by eapply constructs_vorbis.
    + left. do 2 eexists. by eapply constructs_vorbis_invalid.
Qed.

Lemma ctor_constructs (file : string) (s s' : State) (h : SoundFileHandle) :
  SoundFileHandle_ctor W file s = Done h s' <-> constructs W file s h s'.
Proof.
  split; [|apply constructs_ctor].
  intros H. destruct (ctor_cases file s) as [(h2 & s2 & C)|(v & Ho & Ht & Hd & Hz)].
  - rewrite (constructs_ctor _ _ _ _ C) in H. by injection H as <- <-.
  - by rewrite (ctor_division_by_zero _ _ _ Ho Ht Hd Hz) in H.
Qed.

Lemma ctor_Stop (file : string) (s : State) (f : Fault) :
  SoundFileHandle_ctor W file s = Stop f <->
  f = DivisionByZero /\
  exists v, ifstream_is_open W file = true /\
            format_by_suffix file = TYPE_VORBIS /\
            vorbis_decoder W file = Some v /\
            to_u32 (stb_vorbis.channels v) = 0.
Proof.
  split.
  - intros H. destruct (ctor_cases file s) as [(h2 & s2 & C)|(v & Ho & Ht & Hd & Hz)].
    + by rewrite (constructs_ctor _ _ _ _ C) in H.
    + rewrite (ctor_division_by_zero _ _ _ Ho Ht Hd Hz) in H.
      injection H as <-. split; [done|by exists v].
  - intros [-> (v & Ho & Ht & Hd & Hz)]. by eapply ctor_division_by_zero.
Qed.

End Construction.

(** ** Construction: error order, detection, metadata *)

Lemma find_last_of_None (s : string) (c : Ascii.ascii) :
  find_last_of s c = None <-> ~ In c (list_ascii_of_string s).
Proof.
  induction s as [|a s IH]; simpl; [tauto|].
  destruct (find_last_of s c) as [i|].
  - split; [discriminate|].
    intros H. discriminate (proj2 IH (fun x => H (or_intror x))).
  - destruct (Ascii.eqb_spec a c) as [->|Hne].
    + split; [discriminate|tauto].
    + split; [|done]. intros _ [?|?]; [done|]. by apply (proj1 IH).
Qed.

Lemma first_failure_constructs (W : World) (file : string) (s s' : State)
    (h : SoundFileHandle) :
  constructs W file s h s' -> lastError_ h = first_failure W file.
Proof.
  unfold first_failure. intros C.
  destruct C as [Ho|Ho Ht|l Ho Ht Hd ->|l w Ho Ht Hd ->|Ho Ht Hd|l d Ho Ht Hd ->
                |Ho Ht Hd|l v Ho Ht Hd Hz ->];
    rewrite Ho; simpl; [done|rewrite Ht..]; simpl; by rewrite ?Hd.
Qed.

(** C1: the constructor checks file access, then the extension, then the
    backend, and the first failure wins.  A file that cannot be opened gives
    FILE_NOT_FOUND, type TYPE_UNKNOWN, no resource and an untouched state
    whatever its extension; a readable file with an unrecognized extension
    gives UNKNOWN_TYPE with an untouched state whatever the decoders would
    say, never INVALID_FILE; every failure is returned, and the error of any
    returned handle is the first failure in that order. *)
Theorem first_failure_wins (W : World) (file : string) (s : State) :
  (ifstream_is_open W file = false ->
   SoundFileHandle_ctor W file s =
   Done (failed_handle TYPE_UNKNOWN file FILE_NOT_FOUND) s) /\
  (ifstream_is_open W file = true ->
   format_by_suffix file = TYPE_UNKNOWN ->
   SoundFileHandle_ctor W file s =
   Done (failed_handle TYPE_UNKNOWN file UNKNOWN_TYPE) s) /\
  (first_failure W file <> NO_ERROR ->
   exists h s', SoundFileHandle_ctor W file s = Done h s') /\
  (forall h s',
     SoundFileHandle_ctor W file s = Done h s' ->
     error h = first_failure W file /\
     (format_by_suffix file = TYPE_UNKNOWN -> error h <> INVALID_FILE)).
Proof.
  split; [|split; [|split]].
  - intros Ho. by apply constructs_ctor, constructs_not_found.
  - intros Ho Ht. by apply constructs_ctor, constructs_unknown.
  - intros Hf. destruct (ctor_cases W file s) as [(h & s' & C)|(v & Ho & Ht & Hd & _)].
    + exists h, s'. by apply constructs_ctor.
    + destruct Hf. unfold first_failure. by rewrite Ho, Ht; simpl; rewrite Hd.
  - intros h s' C%ctor_constructs. split.
    + by eapply first_failure_constructs.
    + intros Ht. unfold error. rewrite (first_failure_constructs _ _ _ _ _ C).
      unfold first_failure. rewrite Ht. simpl. by destruct (ifstream_is_open W file).
Qed.

Lemma first_failure_wins_witness :
  (ifstream_is_open example_world "missing.txt" = false /\
   format_by_suffix "missing.txt" = TYPE_UNKNOWN /\
   SoundFileHandle_ctor example_world "missing.txt" empty_state =
   Done (failed_handle TYPE_UNKNOWN "missing.txt" FILE_NOT_FOUND) empty_state) /\
  (ifstream_is_open example_world "notes.txt" = true /\
   format_by_suffix "notes.txt" = TYPE_UNKNOWN /\
   SoundFileHandle_ctor example_world "notes.txt" empty_state =
   Done (failed_handle TYPE_UNKNOWN "notes.txt" UNKNOWN_TYPE) empty_state) /\
  (first_failure example_world "corrupt.flac" <> NO_ERROR /\
   exists h s',
     SoundFileHandle_ctor example_world "corrupt.flac" empty_state = Done h s').
Proof.
  split; [|split].
  - split; [reflexivity|]. split; [reflexivity|].
    apply (first_failure_wins example_world "missing.txt" empty_state).
    reflexivity.
  - split; [reflexivity|]. split; [reflexivity|].
    apply (first_failure_wins example_world "notes.txt" empty_state);
      reflexivity.
  - split; [discriminate|].
    apply (first_failure_wins example_world "corrupt.flac" empty_state).
    discriminate.
Defined.

(** C4: for a readable path the detected format is the one the suffix
    mapping gives: WAV, FLAC or VORBIS when the path is a stem followed by
    [.wav], [.flac] or [.ogg], compared case-sensitively.  A path with another
    suffix, or without any ['.'], is TYPE_UNKNOWN, and then the constructor
    returns UNKNOWN_TYPE, holds no resource and leaves the state as it was.
    A successfully opened handle has the type of its suffix. *)
Theorem format_detection (W : World) (file : string) (s : State) :
  ifstream_is_open W file = true ->
  ((format_by_suffix file = TYPE_WAV <->
    exists stem, file = (stem +:+ ".wav")%string) /\
   (format_by_suffix file = TYPE_FLAC <->
    exists stem, file = (stem +:+ ".flac")%string) /\
   (format_by_suffix file = TYPE_VORBIS <->
    exists stem, file = (stem +:+ ".ogg")%string)) /\
  (~ In "."%char (list_ascii_of_string file) ->
   format_by_suffix file = TYPE_UNKNOWN) /\
  (format_by_suffix file = TYPE_UNKNOWN ->
   SoundFileHandle_ctor W file s =
   Done (failed_handle TYPE_UNKNOWN file UNKNOWN_TYPE) s) /\
  (forall h s',
     SoundFileHandle_ctor W file s = Done h s' ->
     type h = format_by_suffix file /\
     (error h = NO_ERROR -> type h <> TYPE_UNKNOWN)).
Proof.
  intros Ho. split; [apply format_by_suffix_stem|]. split; [|split].
  - intros Hdot%find_last_of_None. rewrite <- type_of_extension.
    unfold extension. by rewrite Hdot.
  - intros Ht. by apply constructs_ctor, constructs_unknown.
  - intros h s' C%ctor_constructs.
    destruct C; simpl; try done; congruence.
Qed.

Lemma format_detection_witness :
  ifstream_is_open example_world "song.ogg" = true /\
  forall h s',
    SoundFileHandle_ctor example_world "song.ogg" empty_state = Done h s' ->
    type h = TYPE_VORBIS /\ (error h = NO_ERROR -> type h <> TYPE_UNKNOWN).
Proof.
  split; [reflexivity|].
  apply (format_detection example_world "song.ogg" empty_state). reflexivity.
Defined.

(** The mapping is case-sensitive, and only the last ['.'] counts. *)
Example format_by_suffix_examples :
  format_by_suffix "LOUD.WAV" = TYPE_UNKNOWN /\
  format_by_suffix "album.flac/cover" = TYPE_UNKNOWN /\
  format_by_suffix "take.2.ogg" = TYPE_VORBIS /\
  format_by_suffix ".wav" = TYPE_WAV /\
  format_by_suffix "README" = TYPE_UNKNOWN.
Proof. by repeat split. Qed.

(** C7: a handle whose construction failed, in whichever of the three ways,
    has total frame count, sample rate and channel count all zero; and
    whenever one of the three checks fails the constructor does return such a
    handle. *)
Theorem failed_metadata_zero (W : World) (file : string) (s : State) :
  (first_failure W file <> NO_ERROR ->
   exists h s', SoundFileHandle_ctor W file s = Done h s' /\
                error h = first_failure W file /\
                info h = SoundFileInfo.zero) /\
  (forall h s',
     SoundFileHandle_ctor W file s = Done h s' ->
     error h <> NO_ERROR ->
     info h = SoundFileInfo.zero /\
     SoundFileInfo.totalFrames (info h) = 0 /\
     SoundFileInfo.sampleRate (info h) = 0 /\
     SoundFileInfo.channels (info h) = 0).
Proof.
  assert (forall h s', constructs W file s h s' -> lastError_ h <> NO_ERROR ->
                       info_ h = SoundFileInfo.zero) as Hz
    by (intros h s' C He; by destruct C).
  split.
  - intros Hf.
    destruct (ctor_cases W file s) as [(h & s' & C)|(v & Ho & Ht & Hd & _)].
    + pose proof (first_failure_constructs _ _ _ _ _ C) as He.
      exists h, s'. split; [by apply constructs_ctor|]. split; [done|].
      apply (Hz _ _ C). unfold error in He. by rewrite He.
    + destruct Hf. unfold first_failure. by rewrite Ho, Ht; simpl; rewrite Hd.
  - intros h s' C%ctor_constructs He. unfold info.
    by rewrite (Hz _ _ C He).
Qed.

Lemma failed_metadata_zero_witness :
  first_failure example_world "corrupt.flac" <> NO_ERROR /\
  exists h s',
    SoundFileHandle_ctor example_world "corrupt.flac" empty_state = Done h s' /\
    error h = first_failure example_world "corrupt.flac" /\
    info h = SoundFileInfo.zero.
Proof.
  assert (first_failure example_world "corrupt.flac" <> NO_ERROR) as Hf
    by discriminate.
  split; [exact Hf|].
  exact (proj1 (failed_metadata_zero example_world "corrupt.flac" empty_state) Hf).
Defined.

(** ** Construction: the resource and the metadata *)

Lemma wrap_in_range (w x : Z) : in_range 0 (2 ^ w) x -> wrap w x = x.
Proof. unfold wrap, in_range. intros H. by apply Z.mod_small. Qed.

Lemma to_u32_small (x hi : Z) : hi <= 2 ^ 32 -> in_range 0 hi x -> to_u32 x = x.
Proof. unfold in_range. intros Hhi H. apply wrap_in_range. unfold in_range. lia. Qed.

Lemma vorbis_frames_in_range (count channels : Z) :
  in_range 0 (2 ^ 32) count -> 1 <= channels ->
  in_range 0 (2 ^ 64) (count / channels).
Proof.
  unfold in_range. intros Hc Hch. split.
  - apply Z.div_pos; lia.
  - apply Z.le_lt_trans with count; [apply Z.div_le_upper_bound; nia|lia].
Qed.

Lemma constructs_heap (W : World) (file : string) (s s' : State)
    (h : SoundFileHandle) :
  constructs W file s h s' ->
  match handle_ h with
  | None => heap s' = heap s
  | Some l =>
      heap s !! l = None /\
      exists o, heap s' = <[l := o]> (heap s) /\ variant_of o = type_ h
  end.
Proof.
  intros C; destruct C; subst; simpl; try done;
    (split; [apply fresh_heap|by eexists]).
Qed.

(** C3: after construction the handle holds a live decoder object exactly
    when its error is NO_ERROR and its type is not TYPE_UNKNOWN; that object
    is of the variant the type names, and it is the only heap cell the
    construction leaves changed: a handle never holds more than one. *)
Theorem resource_iff_success (W : World) (file : string) (s s' : State)
    (h : SoundFileHandle) :
  SoundFileHandle_ctor W file s = Done h s' ->
  (handle_ h <> nullptr <-> error h = NO_ERROR /\ type h <> TYPE_UNKNOWN) /\
  (holds_resource s' h <-> error h = NO_ERROR /\ type h <> TYPE_UNKNOWN) /\
  (handle_ h = nullptr -> heap s' = heap s) /\
  (forall l, heap s' !! l <> heap s !! l ->
             handle_ h = Some l /\ heap s !! l = None).
Proof.
  intros C%ctor_constructs. pose proof (constructs_heap _ _ _ _ _ C) as Hh.
  assert (handle_ h <> nullptr <-> error h = NO_ERROR /\ type h <> TYPE_UNKNOWN)
    as Hnull by (destruct C; simpl; split; try done; by intros []).
  split; [done|]. split; [|split].
  - rewrite <- Hnull. unfold holds_resource. split.
    + by intros (l & o & -> & _).
    + destruct (handle_ h) as [l|] eqn:E; [|done]. intros _.
      destruct Hh as (_ & o & -> & Hv). exists l, o.
      destruct (proj1 Hnull) as [_ Ht]; [done|].
      by rewrite lookup_insert_eq.
  - intros E. by rewrite E in Hh.
  - intros l Hl. destruct (handle_ h) as [l'|]; [|by rewrite Hh in Hl].
    destruct Hh as (Hfree & o & Hs' & _). rewrite Hs' in Hl.
    destruct (decide (l' = l)) as [->|Hne]; [done|].
    by rewrite lookup_insert_ne in Hl.
Qed.

Lemma resource_iff_success_witness :
  SoundFileHandle_ctor example_world "drum.wav" empty_state =
  Done (mkHandle TYPE_WAV "drum.wav" (Some 1%positive)
          (SoundFileInfo.mk 96000 48000 1) NO_ERROR)
       (mkState {[ 1%positive := Live_drwav (drwav.mk 96000 48000 1) ]}
          [new_drwav 1%positive; call_drwav_init_file 1%positive true]) /\
  (Some 1%positive <> nullptr <-> NO_ERROR = NO_ERROR /\ TYPE_WAV <> TYPE_UNKNOWN).
Proof.
  assert (SoundFileHandle_ctor example_world "drum.wav" empty_state =
          Done (mkHandle TYPE_WAV "drum.wav" (Some 1%positive)
                  (SoundFileInfo.mk 96000 48000 1) NO_ERROR)
               (mkState {[ 1%positive := Live_drwav (drwav.mk 96000 48000 1) ]}
                  [new_drwav 1%positive; call_drwav_init_file 1%positive true]))
    as E by (vm_compute; reflexivity).
  split; [exact E|].
  exact (proj1 (resource_iff_success example_world "drum.wav" _ _ _ E)).
Defined.

Lemma constructs_metadata (W : World) (file : string) (s s' : State)
    (h : SoundFileHandle) :
  World_well_formed W ->
  constructs W file s h s' ->
  lastError_ h = NO_ERROR ->
  Some (info_ h) = normalized_metadata W (type_ h) file.
Proof.
  intros (Hwav & Hflac & Hvorbis) C He.
  destruct C as [Ho|Ho Ht|l Ho Ht Hd ->|l w Ho Ht Hd ->|Ho Ht Hd|l d Ho Ht Hd ->
                |Ho Ht Hd|l v Ho Ht Hd Hz ->]; try discriminate He;
    simpl; rewrite Hd; simpl.
  - destruct (Hwav _ _ Hd) as (H1 & H2 & H3).
    unfold to_u64. rewrite (wrap_in_range _ _ H1).
    by rewrite (to_u32_small _ _ ltac:(done) H2), (to_u32_small _ (2 ^ 16)).
  - destruct (Hflac _ _ Hd) as (H1 & H2 & H3).
    unfold to_u64. rewrite (wrap_in_range _ _ H1).
    by rewrite (to_u32_small _ _ ltac:(done) H2), (to_u32_small _ (2 ^ 8)).
  - destruct (Hvorbis _ _ Hd) as (H1 & H2 & H3).
    rewrite (to_u32_small _ (2 ^ 31)) in * by done.
    rewrite (to_u32_small _ _ ltac:(done) H1).
    unfold to_u64. rewrite wrap_in_range; [done|].
    apply vorbis_frames_in_range; [done|]. unfold in_range in H2. lia.
Qed.

(** C2: when the backend has opened the file, the constructor fills the
    metadata from what the backend reports: total frame count, sample rate
    and channel count as they are for WAV and FLAC, and for Vorbis the total
    sample count divided (integer division) by the channel count.  A readable
    file that its backend accepts is opened with NO_ERROR.  A Vorbis file of
    2 channels, 44100 Hz and 88200 samples gives TYPE_VORBIS, NO_ERROR and
    the metadata (44100, 44100, 2). *)
Theorem metadata_normalization (W : World) (file : string) (s : State) :
  World_well_formed W ->
  (forall h s',
     SoundFileHandle_ctor W file s = Done h s' ->
     error h = NO_ERROR ->
     Some (info h) = normalized_metadata W (type h) file) /\
  (ifstream_is_open W file = true ->
   backend_accepts W (format_by_suffix file) file = true ->
   (forall v, vorbis_decoder W file = Some v -> stb_vorbis.channels v <> 0) ->
   exists h s', SoundFileHandle_ctor W file s = Done h s' /\ error h = NO_ERROR) /\
  (ifstream_is_open W file = true ->
   format_by_suffix file = TYPE_VORBIS ->
   vorbis_decoder W file = Some (stb_vorbis.mk 44100 2 88200) ->
   exists h s',
     SoundFileHandle_ctor W file s = Done h s' /\
     type h = TYPE_VORBIS /\ error h = NO_ERROR /\
     info h = SoundFileInfo.mk 44100 44100 2).
Proof.
  intros Hwt. split; [|split].
  - intros h s' C%ctor_constructs He. by eapply constructs_metadata.
  - intros Ho Hacc Hnz.
    destruct (ctor_cases W file s) as [(h & s' & C)|(v & _ & Ht & Hd & Hz)].
    + exists h, s'. split; [by apply constructs_ctor|].
      unfold error. rewrite (first_failure_constructs _ _ _ _ _ C).
      unfold first_failure. rewrite Ho, Hacc. simpl.
      case_bool_decide as Ht; [|done]. by rewrite Ht in Hacc.
    + destruct Hwt as (_ & _ & Hvorbis). destruct (Hvorbis _ _ Hd) as (_ & H2 & _).
      rewrite (to_u32_small _ (2 ^ 31)) in Hz by done. by destruct (Hnz _ Hd).
  - intros Ho Ht Hd. eexists _, _. split.
    + apply constructs_ctor. by eapply constructs_vorbis.
    + done.
Qed.

Lemma example_world_well_formed : World_well_formed example_world.
Proof.
  unfold World_well_formed, example_world; simpl.
  split; [|split]; intros f x; case_match; intros [= <-]; by vm_compute.
Defined.

Lemma metadata_normalization_witness :
  World_well_formed example_world /\
  ifstream_is_open example_world "song.ogg" = true /\
  format_by_suffix "song.ogg" = TYPE_VORBIS /\
  vorbis_decoder example_world "song.ogg" = Some (stb_vorbis.mk 44100 2 88200) /\
  exists h s',
    SoundFileHandle_ctor example_world "song.ogg" empty_state = Done h s' /\
    type h = TYPE_VORBIS /\ error h = NO_ERROR /\
    info h = SoundFileInfo.mk 44100 44100 2.
Proof.
  split; [exact example_world_well_formed|].
  split; [reflexivity|]. split; [reflexivity|]. split; [reflexivity|].
  apply (metadata_normalization example_world "song.ogg" empty_state
           example_world_well_formed); reflexivity.
Defined.

(** C8: a successfully opened handle has a channel count and a sample rate
    of at least one, given that the decoders never report zero: the
    constructor copies the two values and checks neither. *)
Theorem opened_metadata_positive (W : World) (file : string) (s s' : State)
    (h : SoundFileHandle) :
  World_well_formed W ->
  never_reports_zero W ->
  SoundFileHandle_ctor W file s = Done h s' ->
  error h = NO_ERROR ->
  SoundFileInfo.channels (info h) >= 1 /\ SoundFileInfo.sampleRate (info h) >= 1.
Proof.
  intros Hwt (Hwav & Hflac & Hvorbis) C He.
  apply ctor_constructs in C.
  pose proof (constructs_metadata _ _ _ _ _ Hwt C He) as Hm.
  unfold info, type, error in *.
  destruct C as [Ho|Ho Ht|l Ho Ht Hd ->|l w Ho Ht Hd ->|Ho Ht Hd|l d Ho Ht Hd ->
                |Ho Ht Hd|l v Ho Ht Hd Hz ->]; try discriminate He;
    simpl in Hm; rewrite Hd in Hm; simpl in Hm; injection Hm as _ H2 H3;
    simpl; rewrite H2, H3.
  - destruct (Hwav _ _ Hd). lia.
  - destruct (Hflac _ _ Hd). lia.
  - destruct (Hvorbis _ _ Hd). lia.
Qed.

Lemma example_world_never_reports_zero : never_reports_zero example_world.
Proof.
  unfold never_reports_zero, example_world; simpl.
  split; [|split]; intros f x; case_match; intros [= <-]; by vm_compute.
Defined.

Lemma opened_metadata_positive_witness :
  World_well_formed example_world /\
  never_reports_zero example_world /\
  SoundFileHandle_ctor example_world "tune.flac" empty_state =
  Done (mkHandle TYPE_FLAC "tune.flac" (Some 1%positive)
          (SoundFileInfo.mk 1000 44100 2) NO_ERROR)
       (mkState {[ 1%positive := Live_drflac (drflac.mk 1000 44100 2) ]}
          [call_drflac_open_file (Some 1%positive)]) /\
  2 >= 1 /\ 44100 >= 1.
Proof.
  assert (SoundFileHandle_ctor example_world "tune.flac" empty_state =
          Done (mkHandle TYPE_FLAC "tune.flac" (Some 1%positive)
                  (SoundFileInfo.mk 1000 44100 2) NO_ERROR)
               (mkState {[ 1%positive := Live_drflac (drflac.mk 1000 44100 2) ]}
                  [call_drflac_open_file (Some 1%positive)]))
    as E by (vm_compute; reflexivity).
  split; [exact example_world_well_formed|].
  split; [exact example_world_never_reports_zero|].
  split; [exact E|].
  exact (opened_metadata_positive example_world "tune.flac" _ _ _
           example_world_well_formed example_world_never_reports_zero E eq_refl).
Defined.

Lemma to_u32_int_zero (c : Z) :
  in_range (- 2 ^ 31) (2 ^ 31) c -> to_u32 c = 0 <-> c = 0.
Proof.
  unfold in_range. intros Hc. destruct (Z_lt_le_dec c 0) as [Hneg|Hpos].
  - assert (to_u32 c = 2 ^ 32 + c) as ->; [|lia].
    unfold to_u32, wrap. symmetry. apply Z.mod_unique with (q := -1); lia.
  - by rewrite (to_u32_small c (2 ^ 31)) by (unfold in_range; lia).
Qed.

(** C10, as the code has it: the Vorbis branch divides the total sample count
    by the channel count without testing it.  The channel count is an [int]
    that the division converts to [unsigned int], so for a readable [.ogg]
    file that the decoder accepts the constructor divides by zero exactly
    when the reported count is 0, and returns exactly when it is not 0.  A
    count of at least one is enough for it to return with NO_ERROR, but is
    not needed: a negative count lets it return too.  The division is the
    only way for the constructor not to return. *)
Theorem vorbis_division_exact (W : World) (file : string) (s : State)
    (v : stb_vorbis.t) :
  ifstream_is_open W file = true ->
  format_by_suffix file = TYPE_VORBIS ->
  vorbis_decoder W file = Some v ->
  in_range (- 2 ^ 31) (2 ^ 31) (stb_vorbis.channels v) ->
  (stb_vorbis.channels v = 0 ->
   SoundFileHandle_ctor W file s = Stop DivisionByZero) /\
  (stb_vorbis.channels v <> 0 <->
   exists h s', SoundFileHandle_ctor W file s = Done h s') /\
  (stb_vorbis.channels v >= 1 ->
   exists h s', SoundFileHandle_ctor W file s = Done h s' /\
                error h = NO_ERROR) /\
  (forall f, SoundFileHandle_ctor W file s = Stop f ->
             f = DivisionByZero /\ stb_vorbis.channels v = 0).
Proof.
  intros Ho Ht Hd Hch. pose proof (to_u32_int_zero _ Hch) as Hz.
  split; [|split; [|split]].
  - intros Hc. eapply ctor_division_by_zero; try done. by apply Hz.
  - split.
    + intros Hne. eexists _, _. apply constructs_ctor.
      eapply constructs_vorbis; try done. by rewrite Hz.
    + intros (h & s' & C) Hc.
      by rewrite (ctor_division_by_zero _ _ _ _ Ho Ht Hd (proj2 Hz Hc)) in C.
  - intros Hge. eexists _, _. split.
    + apply constructs_ctor. eapply constructs_vorbis; try done.
      rewrite Hz. lia.
    + done.
  - intros f (-> & v' & _ & _ & Hd' & Hz')%ctor_Stop.
    rewrite Hd in Hd'. injection Hd' as <-. split; [done|]. by apply Hz.
Qed.

Lemma vorbis_division_exact_witness :
  ifstream_is_open degenerate_world "silence.ogg" = true /\
  format_by_suffix "silence.ogg" = TYPE_VORBIS /\
  vorbis_decoder degenerate_world "silence.ogg" = Some (stb_vorbis.mk 44100 0 0) /\
  in_range (- 2 ^ 31) (2 ^ 31) 0 /\
  SoundFileHandle_ctor degenerate_world "silence.ogg" empty_state =
  Stop DivisionByZero.
Proof.
  assert (in_range (- 2 ^ 31) (2 ^ 31) 0) as Hch by (by vm_compute).
  split; [reflexivity|]. split; [reflexivity|]. split; [reflexivity|].
  split; [exact Hch|].
  by apply (vorbis_division_exact degenerate_world "silence.ogg"
              empty_state (stb_vorbis.mk 44100 0 0)).
Defined.

(** C10 as it was stated fails: "the constructor returns exactly when the
    channel count is at least one" is false for a decoder that reports the
    [int] count -2, where the constructor returns. *)
Lemma vorbis_channels_ge_1_not_needed :
  ifstream_is_open negative_world "song.ogg" = true /\
  format_by_suffix "song.ogg" = TYPE_VORBIS /\
  vorbis_decoder negative_world "song.ogg" = Some (stb_vorbis.mk 44100 (-2) 88200) /\
  in_range (- 2 ^ 31) (2 ^ 31) (-2) /\
  ~ (stb_vorbis.channels (stb_vorbis.mk 44100 (-2) 88200) >= 1 <->
     exists h s',
       SoundFileHandle_ctor negative_world "song.ogg" empty_state = Done h s').
Proof.
  split; [reflexivity|]. split; [reflexivity|]. split; [reflexivity|].
  split; [by vm_compute|].
  intros [_ H].
  assert (exists h s',
            SoundFileHandle_ctor negative_world "song.ogg" empty_state
            = Done h s') as E.
  { exists (mkHandle TYPE_VORBIS "song.ogg" (Some 1%positive)
              (SoundFileInfo.mk 0 44100 4294967294) NO_ERROR),
           (mkState
              {[ 1%positive := Live_vorbis (stb_vorbis.mk 44100 (-2) 88200) ]}
              [call_stb_vorbis_open_filename (Some 1%positive)]).
    vm_compute. reflexivity. }
  apply H in E. simpl in E. lia.
Qed.

(** ** Release and the exported functions *)

Lemma deref_handle (p : loc) (h : SoundFileHandle) (s : State) :
  heap s !! p = Some (Obj_handle h) -> deref (Some p) s = Done h s.
Proof. intros H. unfold deref. run. by rewrite H. Qed.

(** The destructor on a handle that holds no resource does nothing. *)
Lemma dtor_nullptr (h : SoundFileHandle) (s : State) :
  handle_ h = nullptr -> SoundFileHandle_dtor h s = Done tt s.
Proof.
  intros H. unfold SoundFileHandle_dtor. rewrite H.
  rewrite (bool_decide_eq_false_2 (nullptr <> nullptr)) by (by intros []).
  by rewrite !andb_false_r.
Qed.

(** The destructor on a handle that holds a resource tears that resource
    down through the routine of its own backend. *)
Lemma dtor_resource (h : SoundFileHandle) (s : State) :
  holds_resource s h ->
  SoundFileHandle_dtor h s =
  Done tt (mkState (released h (heap s)) (log s ++ teardown_calls h)).
Proof.
  intros (l & o & Hl & Ho & Hv & Hu).
  unfold SoundFileHandle_dtor, teardown_calls, released. rewrite Hl.
  rewrite (bool_decide_eq_true_2 (Some l <> nullptr)) by done.
  rewrite !andb_true_r.
  destruct o; simpl in Hv; try (by destruct Hu); rewrite <- Hv; simpl;
    unfold drwav_uninit, operator_delete_drwav, drflac_close, stb_vorbis_close;
    run; rewrite Ho; run; heap_simpl; by rewrite ?Ho.
Qed.

Lemma release_eq (p : loc) (h : SoundFileHandle) (s : State) :
  heap s !! p = Some (Obj_handle h) ->
  handle_ h = nullptr \/ holds_resource s h ->
  soundCloseFile (Some p) s =
  Done tt (mkState (delete p (released h (heap s)))
             (log s ++ teardown_calls h ++ [delete_SoundFileHandle p])).
Proof.
  intros Hp Hr. unfold soundCloseFile, operator_delete_SoundFileHandle.
  rewrite (bind_Done _ _ _ _ _ (deref_handle _ _ _ Hp)).
  destruct Hr as [Hn|Hr].
  - rewrite (bind_Done _ _ _ _ _ (dtor_nullptr _ _ Hn)).
    unfold released, teardown_calls. rewrite Hn. by run.
  - rewrite (bind_Done _ _ _ _ _ (dtor_resource _ _ Hr)).
    run. by rewrite <- app_assoc.
Qed.

Section Open.

Variable W : World.

Lemma operator_new_SoundFileHandle_eq (file : string) (s s1 : State)
    (h : SoundFileHandle) :
  SoundFileHandle_ctor W file (under_construction s) = Done h s1 ->
  operator_new_SoundFileHandle W file s =
  Done (Some (fresh (dom (heap s))))
       (mkState (<[fresh (dom (heap s)) := Obj_handle h]> (heap s1)) (log s1)).
Proof.
  intros C. unfold operator_new_SoundFileHandle. run.
  unfold under_construction in C. by rewrite C.
Qed.

Lemma constructs_failed (file : string) (s s' : State) (h : SoundFileHandle) :
  constructs W file s h s' ->
  hasError h = true ->
  handle_ h = nullptr /\ heap s' = heap s.
Proof. intros C He. by destruct C. Qed.

Lemma soundOpenFile_eq (file : string) (s s1 : State) (h : SoundFileHandle) :
  SoundFileHandle_ctor W file (under_construction s) = Done h s1 ->
  soundOpenFile W file s =
  if hasError h then
    Done (nullptr, SoundError_code (error h))
         (mkState (heap s)
            (log s1 ++ [delete_SoundFileHandle (fresh (dom (heap s)))]))
  else
    Done (Some (fresh (dom (heap s))), SoundError_code (error h))
         (mkState (<[fresh (dom (heap s)) := Obj_handle h]> (heap s1)) (log s1)).
Proof.
  intros C. unfold soundOpenFile.
  rewrite (bind_Done _ _ _ _ _ (operator_new_SoundFileHandle_eq _ _ _ _ C)).
  set (l := fresh (dom (heap s))).
  set (s2 := mkState (<[l := Obj_handle h]> (heap s1)) (log s1)).
  assert (heap s2 !! l = Some (Obj_handle h)) as Hl by apply lookup_insert_eq.
  pose proof (deref_handle _ _ _ Hl) as Hd.
  cbv beta iota delta [mbind M_bind mret M_ret]. rewrite !Hd.
  destruct (hasError h) eqn:He; [|done].
  apply ctor_constructs in C.
  destruct (constructs_failed _ _ _ _ C He) as [Hn Hh].
  fold (soundCloseFile (Some l)).
  rewrite (release_eq _ _ _ Hl (or_introl Hn)).
  unfold released, teardown_calls. rewrite Hn. subst s2. simpl.
  rewrite Hh. unfold under_construction. subst l. by heap_simpl.
Qed.

Lemma soundOpenFile_Stop (file : string) (s : State) (f : Fault) :
  SoundFileHandle_ctor W file (under_construction s) = Stop f ->
  soundOpenFile W file s = Stop f.
Proof.
  intros C. unfold soundOpenFile, operator_new_SoundFileHandle. run.
  unfold under_construction in C. by rewrite C.
Qed.

End Open.

Lemma open_count_app (t : FileType) (a b : list Call) :
  open_count t (a ++ b) = (open_count t a + open_count t b)%nat.
Proof. unfold open_count. by rewrite List.filter_app, length_app. Qed.

Lemma close_count_app (t : FileType) (a b : list Call) :
  close_count t (a ++ b) = (close_count t a + close_count t b)%nat.
Proof. unfold close_count. by rewrite List.filter_app, length_app. Qed.

Lemma held_nullptr (h : SoundFileHandle) (t : FileType) :
  handle_ h = nullptr -> held h t = 0%nat.
Proof. intros H. unfold held. by rewrite H. Qed.

(** The teardown calls of a handle close what the handle holds, once. *)
Lemma teardown_closes (h : SoundFileHandle) (t : FileType) :
  handle_ h = nullptr \/ type_ h <> TYPE_UNKNOWN ->
  close_count t (teardown_calls h) = held h t /\
  open_count t (teardown_calls h) = 0%nat.
Proof.
  unfold teardown_calls, held. intros Hr.
  destruct (handle_ h) as [l|]; [|done].
  destruct Hr as [|Hr]; [done|].
  by destruct (type_ h), t; try (by destruct Hr).
Qed.

(** The calls the constructor makes open what the handle then holds, and
    close nothing. *)
Lemma constructs_calls (W : World) (file : string) (s s' : State)
    (h : SoundFileHandle) :
  constructs W file s h s' ->
  exists calls, log s' = log s ++ calls /\
    forall t, open_count t calls = held h t /\ close_count t calls = 0%nat.
Proof.
  intros C; destruct C; subst.
  1, 2: exists []; by rewrite app_nil_r.
  all: eexists; (split; [reflexivity|]); by intros [].
Qed.

Lemma heap_restore (m : gmap loc Obj) (p r : loc) (x y z : Obj) :
  m !! p = None -> m !! r = None ->
  delete p (delete r (<[p := x]> (<[r := y]> (<[p := z]> m)))) = m.
Proof.
  intros Hp Hr. apply map_eq; intros i.
  destruct (decide (i = p)), (decide (i = r)); by simplify_map_eq.
Qed.

Lemma soundCloseFile_opened (W : World) (file : string) (s s1 : State)
    (h : SoundFileHandle) :
  let l := fresh (dom (heap s)) in
  constructs W file (under_construction s) h s1 ->
  soundCloseFile (Some l)
    (mkState (<[l := Obj_handle h]> (heap s1)) (log s1)) =
  Done tt (mkState (heap s)
             (log s1 ++ teardown_calls h ++ [delete_SoundFileHandle l])).
Proof.
  intros l C. pose proof (constructs_heap _ _ _ _ _ C) as Hh.
  set (s2 := mkState (<[l := Obj_handle h]> (heap s1)) (log s1)).
  assert (heap s2 !! l = Some (Obj_handle h)) as Hl by apply lookup_insert_eq.
  assert (type_ h <> TYPE_UNKNOWN \/ handle_ h = nullptr) as Ht
    by (destruct C; by eauto).
  destruct (handle_ h) as [r|] eqn:Hr.
  - destruct Hh as (Hfree & o & Hs1 & Hv). destruct Ht as [Ht|]; [|done].
    unfold under_construction in Hfree, Hs1; simpl in Hfree, Hs1.
    apply lookup_insert_None in Hfree as [Hfree Hne].
    assert (holds_resource s2 h) as Hres.
    { exists r, o. repeat split; try done. subst s2; simpl.
      rewrite lookup_insert_ne by done. rewrite Hs1. apply lookup_insert_eq. }
    rewrite (release_eq _ _ _ Hl (or_intror Hres)). unfold released.
    rewrite Hr. subst s2; simpl. rewrite Hs1.
    rewrite heap_restore; [done|apply fresh_heap|done].
  - rewrite (release_eq _ _ _ Hl (or_introl Hr)). unfold released.
    rewrite Hr. subst s2; simpl. rewrite Hh. unfold under_construction; simpl.
    subst l. by heap_simpl.
Qed.

Lemma held_le_1 (h : SoundFileHandle) (t : FileType) : (held h t <= 1)%nat.
Proof. unfold held. destruct (handle_ h); [case_bool_decide|]; lia. Qed.

(** C5: [soundOpenFile] writes the handle's error code (0 NO_ERROR,
    1 FILE_NOT_FOUND, 2 UNKNOWN_TYPE, 3 INVALID_FILE) to its out-parameter and
    returns a non-null pointer exactly when that code is 0.  With code 0 the
    pointer is to the constructed handle; with any other code the handle has
    been destroyed: the destructor has run, its storage is released and the
    heap is as before the call.  The function returns whenever the
    constructor does. *)
Theorem soundOpenFile_contract (W : World) (fileName : string) (s : State) :
  (SoundError_code NO_ERROR = 0 /\ SoundError_code FILE_NOT_FOUND = 1 /\
   SoundError_code UNKNOWN_TYPE = 2 /\ SoundError_code INVALID_FILE = 3) /\
  (forall h s1,
     SoundFileHandle_ctor W fileName (under_construction s) = Done h s1 ->
     exists p s',
       soundOpenFile W fileName s = Done (p, SoundError_code (error h)) s') /\
  (forall p code s',
     soundOpenFile W fileName s = Done (p, code) s' ->
     exists h s1,
       SoundFileHandle_ctor W fileName (under_construction s) = Done h s1 /\
       code = SoundError_code (error h) /\
       (p <> nullptr <-> code = 0) /\
       (code = 0 ->
        p = Some (fresh (dom (heap s))) /\
        heap s' !! fresh (dom (heap s)) = Some (Obj_handle h) /\
        log s' = log s1) /\
       (code <> 0 ->
        p = nullptr /\ heap s' = heap s /\
        log s' = log s1 ++ teardown_calls h
                   ++ [delete_SoundFileHandle (fresh (dom (heap s)))])).
Proof.
  split; [done|]. split.
  - intros h s1 C. rewrite (soundOpenFile_eq _ _ _ _ _ C).
    destruct (hasError h); by eexists _, _.
  - intros p code s' H.
    destruct (SoundFileHandle_ctor W fileName (under_construction s))
      as [h s1|f] eqn:C; [|by rewrite (soundOpenFile_Stop _ _ _ _ C) in H].
    exists h, s1. split; [done|].
    rewrite (soundOpenFile_eq _ _ _ _ _ C) in H. unfold hasError, error in *.
    apply ctor_constructs in C.
    assert (lastError_ h <> NO_ERROR -> teardown_calls h = []) as Htd.
    { intros He. unfold teardown_calls.
      by rewrite (proj1 (constructs_failed _ _ _ _ _ C
                           (eq_trans (f_equal negb (bool_decide_eq_false_2 _ He))
                                     eq_refl))). }
    case_bool_decide as He; simpl in H; injection H as <- <- <-.
    + rewrite He; simpl. repeat split; try done.
      apply lookup_insert_eq.
    + rewrite (Htd He); simpl.
      destruct (lastError_ h); by repeat split.
Qed.

Lemma soundOpenFile_contract_witness :
  soundOpenFile example_world "missing.wav" empty_state =
  Done (nullptr, 1)
       (mkState ∅ [new_SoundFileHandle 1%positive;
                   delete_SoundFileHandle 1%positive]) /\
  (nullptr <> nullptr <-> 1 = 0).
Proof.
  assert (soundOpenFile example_world "missing.wav" empty_state =
          Done (nullptr, 1)
               (mkState ∅ [new_SoundFileHandle 1%positive;
                           delete_SoundFileHandle 1%positive])) as E
    by (vm_compute; reflexivity).
  split; [exact E|].
  destruct (proj2 (proj2 (soundOpenFile_contract example_world "missing.wav"
                            empty_state)) _ _ _ E)
    as (h & s1 & _ & _ & Hiff & _).
  exact Hiff.
Defined.

(** C6: releasing a handle calls the teardown routine of the backend whose
    decoder it holds, exactly once and before the handle's own storage is
    freed, and calls no teardown routine when it holds none.  Closing what
    [soundOpenFile] returned (the handle, or nothing after a failed open,
    where the handle has been released already) leaves the heap as it was
    before the open, with every backend opened as often as closed, at most
    once. *)
Theorem release_contract (W : World) :
  (forall s p h,
     heap s !! p = Some (Obj_handle h) ->
     handle_ h = nullptr \/ holds_resource s h ->
     exists s',
       soundCloseFile (Some p) s = Done tt s' /\
       log s' = log s ++ teardown_calls h ++ [delete_SoundFileHandle p] /\
       heap s' = delete p (released h (heap s)) /\
       forall t, close_count t (teardown_calls h) = held h t) /\
  (forall file s p code s1,
     soundOpenFile W file s = Done (p, code) s1 ->
     exists s2 calls,
       soundCloseFile p s1 = Done tt s2 /\
       heap s2 = heap s /\
       log s2 = log s ++ calls /\
       forall t, open_count t calls = close_count t calls /\
                 (open_count t calls <= 1)%nat).
Proof.
  split.
  - intros s p h Hp Hr. eexists. split; [by apply release_eq|].
    repeat split. intros t. apply teardown_closes.
    destruct Hr as [|(_ & _ & _ & _ & _ & Ht)]; by eauto.
  - intros file s p code s1 H.
    destruct (SoundFileHandle_ctor W file (under_construction s))
      as [h s1'|f] eqn:C; [|by rewrite (soundOpenFile_Stop _ _ _ _ C) in H].
    rewrite (soundOpenFile_eq _ _ _ _ _ C) in H. apply ctor_constructs in C.
    destruct (constructs_calls _ _ _ _ _ C) as (calls & Hlog & Hcount).
    assert (handle_ h = nullptr \/ type_ h <> TYPE_UNKNOWN) as Ht
      by (destruct C; by eauto).
    set (l := fresh (dom (heap s))) in *.
    exists (mkState (heap s)
              (log s1' ++ teardown_calls h ++ [delete_SoundFileHandle l])),
           (new_SoundFileHandle l :: calls ++ teardown_calls h
              ++ [delete_SoundFileHandle l]).
    split; [|split; [done|split]].
    + destruct (hasError h) eqn:He; injection H as <- <- <-.
      * destruct (constructs_failed _ _ _ _ _ C He) as [Hn _].
        unfold teardown_calls. by rewrite Hn.
      * by apply (soundCloseFile_opened W file).
    + simpl. rewrite Hlog. unfold under_construction. simpl.
      by rewrite <- !app_assoc.
    + intros t. destruct (Hcount t) as [Ho Hc].
      destruct (teardown_closes h t Ht) as [Hc' Ho'].
      change (new_SoundFileHandle l :: calls ++ teardown_calls h
                ++ [delete_SoundFileHandle l])
        with ([new_SoundFileHandle l] ++ calls ++ teardown_calls h
                ++ [delete_SoundFileHandle l]).
      rewrite !open_count_app, !close_count_app, Ho, Hc, Ho', Hc'.
      pose proof (held_le_1 h t).
      replace (open_count t [new_SoundFileHandle l]) with 0%nat by by destruct t.
      replace (open_count t [delete_SoundFileHandle l]) with 0%nat by by destruct t.
      replace (close_count t [new_SoundFileHandle l]) with 0%nat by by destruct t.
      replace (close_count t [delete_SoundFileHandle l]) with 0%nat by by destruct t.
      lia.
Qed.

Lemma release_contract_witness :
  soundOpenFile example_world "drum.wav" empty_state =
  Done (Some 1%positive, 0)
       (mkState
          (<[1%positive :=
               Obj_handle (mkHandle TYPE_WAV "drum.wav" (Some 2%positive)
                             (SoundFileInfo.mk 96000 48000 1) NO_ERROR)]>
             {[ 2%positive := Live_drwav (drwav.mk 96000 48000 1) ]})
          [new_SoundFileHandle 1%positive; new_drwav 2%positive;
           call_drwav_init_file 2%positive true]) /\
  exists s2 calls,
    soundCloseFile (Some 1%positive)
      (mkState
         (<[1%positive :=
              Obj_handle (mkHandle TYPE_WAV "drum.wav" (Some 2%positive)
                            (SoundFileInfo.mk 96000 48000 1) NO_ERROR)]>
            {[ 2%positive := Live_drwav (drwav.mk 96000 48000 1) ]})
         [new_SoundFileHandle 1%positive; new_drwav 2%positive;
          call_drwav_init_file 2%positive true]) = Done tt s2 /\
    heap s2 = heap empty_state /\
    log s2 = log empty_state ++ calls /\
    forall t, open_count t calls = close_count t calls /\
              (open_count t calls <= 1)%nat.
Proof.
  assert (soundOpenFile example_world "drum.wav" empty_state =
          Done (Some 1%positive, 0)
            (mkState
               (<[1%positive :=
                    Obj_handle (mkHandle TYPE_WAV "drum.wav" (Some 2%positive)
                                  (SoundFileInfo.mk 96000 48000 1) NO_ERROR)]>
                  {[ 2%positive := Live_drwav (drwav.mk 96000 48000 1) ]})
               [new_SoundFileHandle 1%positive; new_drwav 2%positive;
                call_drwav_init_file 2%positive true])) as E
    by (vm_compute; reflexivity).
  split; [exact E|].
  exact (proj2 (release_contract example_world) _ _ _ _ _ E).
Defined.

(** ** Queries *)

Lemma ask_answer (s : State) (p : loc) (h : SoundFileHandle) (q : Query) :
  heap s !! p = Some (Obj_handle h) ->
  ask q (Some p) s = Done (answer h q) s.
Proof.
  intros Hp. pose proof (deref_handle _ _ _ Hp) as Hd.
  destruct q; unfold ask, soundGetFileType, soundGetFileName, soundGetError,
    soundGetFrameCount, soundGetSampleRate, soundGetChannelCount, soundGetInfo;
    cbv beta iota delta [fmap M_fmap mbind M_bind mret M_ret];
    by rewrite !Hd.
Qed.

(** C9: every query is a read.  On a pointer to a live handle each exported
    accessor returns the value of the corresponding member function and
    leaves the state, and so every field of the handle, as it was; any
    sequence of queries does the same, so a repeated query gives the same
    answer. *)
Theorem queries_are_reads (s : State) (p : loc) (h : SoundFileHandle) :
  heap s !! p = Some (Obj_handle h) ->
  (forall q, ask q (Some p) s = Done (answer h q) s) /\
  (forall qs, ask_all qs (Some p) s = Done (map (answer h) qs) s) /\
  (forall q, (ask q (Some p);; ask q (Some p)) s = ask q (Some p) s) /\
  (hasError h = true <-> error h <> NO_ERROR).
Proof.
  intros Hp. split; [|split; [|split]].
  - intros q. by apply ask_answer.
  - induction qs as [|q qs IH]; [done|].
    simpl. rewrite (bind_Done _ _ _ _ _ (ask_answer _ _ _ q Hp)).
    by rewrite (bind_Done _ _ _ _ _ IH).
  - intros q. by rewrite (bind_Done _ _ _ _ _ (ask_answer _ _ _ q Hp)).
  - unfold hasError, error. case_bool_decide; naive_solver.
Qed.

Example opened_flac_state_eq :
  soundOpenFile example_world "tune.flac" empty_state =
  Done (Some 1%positive, 0) opened_flac_state.
Proof. vm_compute. reflexivity. Qed.

Lemma queries_are_reads_witness :
  heap opened_flac_state !! 1%positive = Some (Obj_handle opened_flac) /\
  ask_all [Q_info; Q_type; Q_error; Q_info; Q_fileName] (Some 1%positive)
    opened_flac_state =
  Done [A_info 1000 44100 2; A_int 2; A_int 0; A_info 1000 44100 2;
        A_string "tune.flac"] opened_flac_state.
Proof.
  assert (heap opened_flac_state !! 1%positive = Some (Obj_handle opened_flac))
    as Hp by (vm_compute; reflexivity).
  split; [exact Hp|].
  exact (proj1 (proj2 (queries_are_reads opened_flac_state 1%positive
                         opened_flac Hp))
           [Q_info; Q_type; Q_error; Q_info; Q_fileName]).
Defined.

(** * Further properties of the code *)

(** ** The extension, lines 75-80 *)

Lemma list_ascii_of_string_app (a b : string) :
  list_ascii_of_string (a +:+ b) =
  (list_ascii_of_string a ++ list_ascii_of_string b)%list.
Proof. induction a as [|c a IH]; simpl; [done|]. by rewrite IH. Qed.

(** X1: when the path has a ['.'], [find_last_of] gives the position of the
    last one and [substr] does not throw there: the extension is the rest of
    the path from that position, it starts with the ['.'] and has no other.
    When the path has none, [find_last_of] gives [npos]. *)
Theorem extension_shape (path : string) :
  match find_last_of path "."%char with
  | None => ~ In "."%char (list_ascii_of_string path)
  | Some extPos =>
      exists stem rest,
        substr path extPos = Some (String "."%char rest) /\
        path = (stem +:+ String "."%char rest)%string /\
        String.length stem = extPos /\
        ~ In "."%char (list_ascii_of_string rest)
  end.
Proof.
  induction path as [|a s IH]; simpl; [tauto|].
  destruct (find_last_of s ".") as [i|].
  - destruct IH as (stem & rest & Hs & -> & <- & Hr).
    by exists (String a stem), rest.
  - destruct (Ascii.eqb_spec a ".") as [->|Hne].
    + by exists ""%string, s.
    + intros [?|?]; [done|by apply IH].
Qed.

Lemma extension_shape_witness :
  exists stem rest,
    substr "take.2.ogg" 6 = Some (String "."%char rest) /\
    "take.2.ogg"%string = (stem +:+ String "."%char rest)%string /\
    String.length stem = 6%nat /\
    ~ In "."%char (list_ascii_of_string rest).
Proof. exact (extension_shape "take.2.ogg"). Defined.

(** Characters after the last ['.'] that are not a ['.'] stay in the
    extension. *)
Lemma extension_app (s t : string) :
  ~ In "."%char (list_ascii_of_string t) ->
  extension (s +:+ t) = (fun e => (e +:+ t)%string) <$> extension s.
Proof.
  intros Ht. induction s as [|a s IH].
  - simpl. apply extension_None. by apply find_last_of_None.
  - change (String a s +:+ t)%string with (String a (s +:+ t)).
    rewrite !extension_String, IH.
    destruct (extension s) as [e|]; simpl; [done|].
    by destruct (Ascii.eqb a ".").
Qed.

Lemma type_of_ext_slash (e name : string) :
  type_of_ext (e +:+ String "/"%char name) = TYPE_UNKNOWN.
Proof.
  assert (In "/"%char (list_ascii_of_string (e +:+ String "/"%char name))) as Hin.
  { rewrite list_ascii_of_string_app. apply in_or_app. right. by left. }
  unfold type_of_ext.
  destruct (String.eqb_spec (e +:+ String "/" name) ".wav") as [E|_].
  { rewrite E in Hin. simpl in Hin. intuition discriminate. }
  destruct (String.eqb_spec (e +:+ String "/" name) ".flac") as [E|_].
  { rewrite E in Hin. simpl in Hin. intuition discriminate. }
  destruct (String.eqb_spec (e +:+ String "/" name) ".ogg") as [E|_].
  { rewrite E in Hin. simpl in Hin. intuition discriminate. }
  done.
Qed.

(** X2: the extension is looked for in the whole path, not in the file name:
    a file whose own name has no ['.'] is of unknown type whatever the
    directory is called, also when the directory's name ends in [.wav],
    [.flac] or [.ogg]; when it can be read the constructor returns
    UNKNOWN_TYPE and calls no decoder. *)
Theorem dot_in_directory (W : World) (dir name : string) (s : State) :
  ~ In "."%char (list_ascii_of_string name) ->
  ifstream_is_open W (dir +:+ String "/"%char name) = true ->
  format_by_suffix (dir +:+ String "/"%char name) = TYPE_UNKNOWN /\
  SoundFileHandle_ctor W (dir +:+ String "/"%char name) s =
  Done (failed_handle TYPE_UNKNOWN (dir +:+ String "/"%char name) UNKNOWN_TYPE) s.
Proof.
  intros Hname Ho.
  assert (format_by_suffix (dir +:+ String "/"%char name) = TYPE_UNKNOWN) as Ht.
  { rewrite <- type_of_extension, extension_app.
    - destruct (extension dir) as [e|]; simpl; [apply type_of_ext_slash|done].
    - simpl. intros [?|?]; [done|by apply Hname]. }
  split; [done|]. by apply constructs_ctor, constructs_unknown.
Qed.

Lemma dot_in_directory_witness :
  ~ In "."%char (list_ascii_of_string "README") /\
  ifstream_is_open example_world "takes.ogg/README" = true /\
  SoundFileHandle_ctor example_world "takes.ogg/README" empty_state =
  Done (failed_handle TYPE_UNKNOWN "takes.ogg/README" UNKNOWN_TYPE) empty_state.
Proof.
  assert (~ In "."%char (list_ascii_of_string "README")) as Hname
    by (simpl; intuition discriminate).
  split; [exact Hname|]. split; [reflexivity|].
  exact (proj2 (dot_in_directory example_world "takes.ogg" "README" empty_state
                  Hname eq_refl)).
Defined.

(** ** The constructor, lines 59-137 *)

(** X3: the constructor calls no decoder but the one of the detected format,
    and none at all when the file cannot be read or its type is unknown;
    every call it makes is added at the end of the log. *)
Theorem ctor_calls_own_backend (W : World) (file : string) (s s' : State)
    (h : SoundFileHandle) :
  SoundFileHandle_ctor W file s = Done h s' ->
  exists calls,
    log s' = log s ++ calls /\
    (forall c, In c calls ->
               backend_of c = format_by_suffix file /\
               ifstream_is_open W file = true) /\
    (error h = FILE_NOT_FOUND \/ error h = UNKNOWN_TYPE -> calls = []).
Proof.
  intros C%ctor_constructs.
  destruct C as [Ho|Ho Ht|l Ho Ht Hd ->|l w Ho Ht Hd ->|Ho Ht Hd|l d Ho Ht Hd ->
                |Ho Ht Hd|l v Ho Ht Hd Hz ->].
  1, 2: exists []; rewrite app_nil_r; by repeat split.
  all: eexists; split; [reflexivity|]; rewrite Ht; split;
    [|by intros [|]].
  all: intros c Hc; simpl in Hc;
    repeat (destruct Hc as [<-|Hc]; [by split|]); by destruct Hc.
Qed.

Lemma ctor_calls_own_backend_witness :
  SoundFileHandle_ctor permissive_world "drum.wav" empty_state =
  Done (mkHandle TYPE_WAV "drum.wav" (Some 1%positive)
          (SoundFileInfo.mk 96000 48000 1) NO_ERROR)
       (mkState {[ 1%positive := Live_drwav (drwav.mk 96000 48000 1) ]}
          [new_drwav 1%positive; call_drwav_init_file 1%positive true]) /\
  exists calls,
    [new_drwav 1%positive; call_drwav_init_file 1%positive true] = [] ++ calls /\
    (forall c, In c calls ->
               backend_of c = format_by_suffix "drum.wav" /\
               ifstream_is_open permissive_world "drum.wav" = true) /\
    (NO_ERROR = FILE_NOT_FOUND \/ NO_ERROR = UNKNOWN_TYPE -> calls = []).
Proof.
  assert (SoundFileHandle_ctor permissive_world "drum.wav" empty_state =
          Done (mkHandle TYPE_WAV "drum.wav" (Some 1%positive)
                  (SoundFileInfo.mk 96000 48000 1) NO_ERROR)
               (mkState {[ 1%positive := Live_drwav (drwav.mk 96000 48000 1) ]}
                  [new_drwav 1%positive; call_drwav_init_file 1%positive true]))
    as E by (vm_compute; reflexivity).
  split; [exact E|].
  exact (ctor_calls_own_backend permissive_world "drum.wav" _ _ _ E).
Defined.

(** X5: the frame count of a Vorbis file is the sample count divided by the
    channel count with the remainder dropped: frames times channels is at
    most the sample count and misses it by less than one frame, and equals
    it when the channel count divides the sample count. *)
Theorem vorbis_frames_truncate (W : World) (file : string) (s : State)
    (v : stb_vorbis.t) :
  ifstream_is_open W file = true ->
  format_by_suffix file = TYPE_VORBIS ->
  vorbis_decoder W file = Some v ->
  stb_vorbis.well_formed v ->
  stb_vorbis.channels v >= 1 ->
  exists h s',
    SoundFileHandle_ctor W file s = Done h s' /\
    error h = NO_ERROR /\
    SoundFileInfo.totalFrames (info h) * stb_vorbis.channels v
      <= stb_vorbis.stream_length_in_samples v
      < SoundFileInfo.totalFrames (info h) * stb_vorbis.channels v
        + stb_vorbis.channels v /\
    (stb_vorbis.stream_length_in_samples v mod stb_vorbis.channels v = 0 ->
     SoundFileInfo.totalFrames (info h) * stb_vorbis.channels v
     = stb_vorbis.stream_length_in_samples v).
Proof.
  intros Ho Ht Hd (H1 & H2 & H3) Hge.
  assert (to_u32 (stb_vorbis.channels v) = stb_vorbis.channels v) as Hu
    by (by apply (to_u32_small _ (2 ^ 31))).
  eexists _, _. split.
  { apply constructs_ctor. eapply constructs_vorbis; try done. lia. }
  split; [done|]. simpl. rewrite Hu. unfold to_u64.
  rewrite wrap_in_range by (apply vorbis_frames_in_range; [done|lia]).
  pose proof (Z.div_mod (stb_vorbis.stream_length_in_samples v)
                (stb_vorbis.channels v) ltac:(lia)) as Hdm.
  pose proof (Z.mod_pos_bound (stb_vorbis.stream_length_in_samples v)
                (stb_vorbis.channels v) ltac:(lia)) as Hmb.
  split; [lia|]. intros Hz. lia.
Qed.

Lemma vorbis_frames_truncate_witness :
  ifstream_is_open permissive_world "odd.ogg" = true /\
  format_by_suffix "odd.ogg" = TYPE_VORBIS /\
  vorbis_decoder permissive_world "odd.ogg" = Some (stb_vorbis.mk 44100 2 88201) /\
  stb_vorbis.well_formed (stb_vorbis.mk 44100 2 88201) /\
  exists h s',
    SoundFileHandle_ctor permissive_world "odd.ogg" empty_state = Done h s' /\
    error h = NO_ERROR /\
    SoundFileInfo.totalFrames (info h) * 2 <= 88201
      < SoundFileInfo.totalFrames (info h) * 2 + 2 /\
    (88201 mod 2 = 0 -> SoundFileInfo.totalFrames (info h) * 2 = 88201).
Proof.
  assert (stb_vorbis.well_formed (stb_vorbis.mk 44100 2 88201)) as Hwf
    by (by vm_compute).
  split; [reflexivity|]. split; [reflexivity|]. split; [reflexivity|].
  split; [exact Hwf|].
  apply (vorbis_frames_truncate permissive_world "odd.ogg" empty_state
           (stb_vorbis.mk 44100 2 88201)); try reflexivity; [exact Hwf|].
  simpl. lia.
Defined.

(** X6: the constructor either returns or divides by zero, and it divides by
    zero exactly for a readable [.ogg] file that the Vorbis decoder accepts
    with a channel count that converts to the unsigned value 0.  It never
    dereferences a null or dangling pointer, [substr] never throws, and a
    WAV or FLAC file always lets it return. *)
Theorem ctor_returns_or_divides_by_zero (W : World) (file : string) (s : State) :
  ((exists h s', SoundFileHandle_ctor W file s = Done h s') \/
   SoundFileHandle_ctor W file s = Stop DivisionByZero) /\
  (SoundFileHandle_ctor W file s = Stop DivisionByZero <->
   ifstream_is_open W file = true /\
   format_by_suffix file = TYPE_VORBIS /\
   exists v, vorbis_decoder W file = Some v /\
             to_u32 (stb_vorbis.channels v) = 0).
Proof.
  split.
  - destruct (ctor_cases W file s) as [(h & s' & C)|(v & Ho & Ht & Hd & Hz)].
    + left. exists h, s'. by apply constructs_ctor.
    + right. by eapply ctor_division_by_zero.
  - rewrite ctor_Stop. split.
    + intros (_ & v & Ho & Ht & Hd & Hz). eauto.
    + intros (Ho & Ht & v & Hd & Hz). split; [done|]. by exists v.
Qed.

Lemma ctor_returns_or_divides_by_zero_witness :
  (ifstream_is_open degenerate_world "silence.ogg" = true /\
   format_by_suffix "silence.ogg" = TYPE_VORBIS /\
   exists v, vorbis_decoder degenerate_world "silence.ogg" = Some v /\
             to_u32 (stb_vorbis.channels v) = 0) /\
  SoundFileHandle_ctor degenerate_world "silence.ogg" empty_state =
  Stop DivisionByZero.
Proof.
  assert (ifstream_is_open degenerate_world "silence.ogg" = true /\
          format_by_suffix "silence.ogg" = TYPE_VORBIS /\
          exists v, vorbis_decoder degenerate_world "silence.ogg" = Some v /\
                    to_u32 (stb_vorbis.channels v) = 0) as H.
  { split; [reflexivity|]. split; [reflexivity|].
    exists (stb_vorbis.mk 44100 0 0). split; reflexivity. }
  split; [exact H|].
  exact (proj2 (proj2 (ctor_returns_or_divides_by_zero degenerate_world
                         "silence.ogg" empty_state)) H).
Defined.

Lemma to_u32_negative (c : Z) :
  in_range (- 2 ^ 31) 0 c -> to_u32 c = 2 ^ 32 + c.
Proof.
  unfold in_range, to_u32, wrap. intros Hc. symmetry.
  apply Z.mod_unique with (q := -1); lia.
Qed.

(** X7: the channel count of stb_vorbis is an [int] and the division of
    line 131 converts it to [unsigned int].  If the decoder reports a
    negative count [c], the constructor does not fail: it returns NO_ERROR
    with the channel count 2^32 + c and a frame count of 0 or 1. *)
Theorem negative_channel_count (W : World) (file : string) (s : State)
    (v : stb_vorbis.t) :
  ifstream_is_open W file = true ->
  format_by_suffix file = TYPE_VORBIS ->
  vorbis_decoder W file = Some v ->
  in_range (- 2 ^ 31) 0 (stb_vorbis.channels v) ->
  in_range 0 (2 ^ 32) (stb_vorbis.stream_length_in_samples v) ->
  exists h s',
    SoundFileHandle_ctor W file s = Done h s' /\
    error h = NO_ERROR /\
    SoundFileInfo.channels (info h) = 2 ^ 32 + stb_vorbis.channels v /\
    0 <= SoundFileInfo.totalFrames (info h) <= 1.
Proof.
  intros Ho Ht Hd Hc Hn. pose proof (to_u32_negative _ Hc) as Hu.
  unfold in_range in *.
  eexists _, _. split.
  { apply constructs_ctor. eapply constructs_vorbis; try done. lia. }
  split; [done|]. simpl. rewrite Hu. split; [done|].
  assert (0 <= stb_vorbis.stream_length_in_samples v
               / (2 ^ 32 + stb_vorbis.channels v) < 2) as Hq.
  { split; [apply Z.div_pos; lia|apply Z.div_lt_upper_bound; lia]. }
  unfold to_u64. rewrite wrap_in_range by (unfold in_range; lia). lia.
Qed.

Lemma negative_channel_count_witness :
  ifstream_is_open negative_world "song.ogg" = true /\
  format_by_suffix "song.ogg" = TYPE_VORBIS /\
  vorbis_decoder negative_world "song.ogg" = Some (stb_vorbis.mk 44100 (-2) 88200) /\
  in_range (- 2 ^ 31) 0 (-2) /\
  in_range 0 (2 ^ 32) 88200 /\
  exists h s',
    SoundFileHandle_ctor negative_world "song.ogg" empty_state = Done h s' /\
    error h = NO_ERROR /\
    SoundFileInfo.channels (info h) = 2 ^ 32 + -2 /\
    0 <= SoundFileInfo.totalFrames (info h) <= 1.
Proof.
  assert (in_range (- 2 ^ 31) 0 (-2)) as H1 by (by vm_compute).
  assert (in_range 0 (2 ^ 32) 88200) as H2 by (by vm_compute).
  split; [reflexivity|]. split; [reflexivity|]. split; [reflexivity|].
  split; [exact H1|]. split; [exact H2|].
  exact (negative_channel_count negative_world "song.ogg" empty_state
           (stb_vorbis.mk 44100 (-2) 88200) eq_refl eq_refl eq_refl H1 H2).
Defined.

(** X8: the type of a handle alone does not tell whether it was opened.  The
    type is TYPE_UNKNOWN exactly when the error is FILE_NOT_FOUND or
    UNKNOWN_TYPE; a handle with INVALID_FILE keeps the type detected from the
    suffix, although it holds no resource and has zero metadata.  The file
    name is kept as passed in every case. *)
Theorem failed_handle_keeps_type (W : World) (file : string) (s s' : State)
    (h : SoundFileHandle) :
  SoundFileHandle_ctor W file s = Done h s' ->
  fileName h = file /\
  (type h = TYPE_UNKNOWN <->
   error h = FILE_NOT_FOUND \/ error h = UNKNOWN_TYPE) /\
  (error h = INVALID_FILE ->
   type h = format_by_suffix file /\ type h <> TYPE_UNKNOWN /\
   handle_ h = nullptr /\ info h = SoundFileInfo.zero /\
   backend_accepts W (type h) file = false).
Proof.
  intros C%ctor_constructs.
  destruct C as [Ho|Ho Ht|l Ho Ht Hd ->|l w Ho Ht Hd ->|Ho Ht Hd|l d Ho Ht Hd ->
                |Ho Ht Hd|l v Ho Ht Hd Hz ->]; simpl.
  all: split; [done|]; split;
    [split; [try done; by eauto|by intros [|]]|].
  all: try done.
  all: intros _; rewrite Ht, Hd; repeat split; try done.
Qed.

Lemma failed_handle_keeps_type_witness :
  SoundFileHandle_ctor example_world "corrupt.flac" empty_state =
  Done (failed_handle TYPE_FLAC "corrupt.flac" INVALID_FILE)
       (mkState ∅ [call_drflac_open_file nullptr]) /\
  (TYPE_FLAC = TYPE_UNKNOWN <->
   INVALID_FILE = FILE_NOT_FOUND \/ INVALID_FILE = UNKNOWN_TYPE).
Proof.
  assert (SoundFileHandle_ctor example_world "corrupt.flac" empty_state =
          Done (failed_handle TYPE_FLAC "corrupt.flac" INVALID_FILE)
               (mkState ∅ [call_drflac_open_file nullptr])) as E
    by (vm_compute; reflexivity).
  split; [exact E|].
  exact (proj1 (proj2 (failed_handle_keeps_type example_world "corrupt.flac"
                         _ _ _ E))).
Defined.

(** ** The exported functions, lines 174-234 *)

(** What a successful [soundOpenFile] leaves: the handle at a new address
    [p], its decoder object at another new address [r], the rest of the heap
    as it was. *)
Lemma soundOpenFile_success (W : World) (file : string) (s s1 : State)
    (p : loc) (code : Z) :
  soundOpenFile W file s = Done (Some p, code) s1 ->
  exists h r o s1',
    constructs W file (under_construction s) h s1' /\
    code = 0 /\ lastError_ h = NO_ERROR /\ handle_ h = Some r /\
    heap s !! p = None /\ heap s !! r = None /\ p <> r /\
    variant_of o = type_ h /\ type_ h <> TYPE_UNKNOWN /\
    heap s1 = <[p := Obj_handle h]> (<[r := o]> (heap s)) /\
    log s1 = log s1'.
Proof.
  intros H.
  destruct (SoundFileHandle_ctor W file (under_construction s))
    as [h s1'|f] eqn:C; [|by rewrite (soundOpenFile_Stop _ _ _ _ C) in H].
  rewrite (soundOpenFile_eq _ _ _ _ _ C) in H. apply ctor_constructs in C.
  destruct (hasError h) eqn:He; [discriminate|]. injection H as <- <- <-.
  pose proof (constructs_heap _ _ _ _ _ C) as Hh.
  assert (lastError_ h = NO_ERROR) as Hok.
  { unfold hasError in He. by case_bool_decide. }
  assert (handle_ h <> nullptr /\ type_ h <> TYPE_UNKNOWN) as [Hn Ht]
    by (destruct C; by try discriminate Hok).
  destruct (handle_ h) as [r|] eqn:Hr; [|done].
  destruct Hh as (Hfree & o & Hs1 & Hv).
  unfold under_construction in Hfree, Hs1; simpl in Hfree, Hs1.
  apply lookup_insert_None in Hfree as [Hfree Hne].
  exists h, r, o, s1'. unfold error. rewrite Hok.
  repeat split; try done.
  - apply fresh_heap.
  - simpl. rewrite Hs1.
    rewrite (insert_insert_ne _ r) by congruence. by rewrite insert_insert_eq.
Qed.

Lemma soundOpenFile_failure (W : World) (file : string) (s s1 : State)
    (code : Z) :
  soundOpenFile W file s = Done (nullptr, code) s1 ->
  heap s1 = heap s /\ code <> 0.
Proof.
  intros H.
  destruct (SoundFileHandle_ctor W file (under_construction s))
    as [h s1'|f] eqn:C; [|by rewrite (soundOpenFile_Stop _ _ _ _ C) in H].
  rewrite (soundOpenFile_eq _ _ _ _ _ C) in H.
  destruct (hasError h) eqn:He; [|discriminate]. injection H as <- <-.
  split; [done|]. unfold hasError, error in *.
  case_bool_decide as Hn; [discriminate|]. by destruct (lastError_ h).
Qed.

Lemma soundOpenFile_subseteq (W : World) (file : string) (s s1 : State)
    (p : ptr) (code : Z) :
  soundOpenFile W file s = Done (p, code) s1 -> heap s ⊆ heap s1.
Proof.
  intros H. destruct p as [p|].
  - destruct (soundOpenFile_success _ _ _ _ _ _ H)
      as (h & r & o & s1' & _ & _ & _ & _ & Hp & Hr & Hne & _ & _ & -> & _).
    etrans; [by apply (insert_subseteq _ r o)|].
    apply insert_subseteq. by rewrite lookup_insert_ne.
  - by destruct (soundOpenFile_failure _ _ _ _ _ H) as [-> _].
Qed.

Lemma holds_resource_weaken (s s1 : State) (h : SoundFileHandle) :
  holds_resource s h -> heap s ⊆ heap s1 -> holds_resource s1 h.
Proof.
  intros (l & o & Hl & Ho & Hv & Ht) Hsub. exists l, o.
  repeat split; try done. by eapply lookup_weaken.
Qed.

Lemma open_handle_weaken (s s1 : State) (p : loc) (h : SoundFileHandle) :
  open_handle s p h -> heap s ⊆ heap s1 -> open_handle s1 p h.
Proof.
  intros [Hp Hr] Hsub. split; [by eapply lookup_weaken|].
  destruct Hr as [|Hr]; [by left|right]. by eapply holds_resource_weaken.
Qed.

Lemma soundOpenFile_open_handle (W : World) (file : string) (s s1 : State)
    (p : loc) (code : Z) :
  soundOpenFile W file s = Done (Some p, code) s1 ->
  exists h, open_handle s1 p h /\ handle_ h <> nullptr /\
            lastError_ h = NO_ERROR /\ fileName_ h = file /\
            type_ h = format_by_suffix file /\ type_ h <> TYPE_UNKNOWN.
Proof.
  intros H.
  destruct (soundOpenFile_success _ _ _ _ _ _ H)
    as (h & r & o & s1' & C & _ & Hok & Hr & Hp & Hfr & Hne & Hv & Ht & Hs1 & _).
  exists h. rewrite Hr. repeat split; try done.
  - rewrite Hs1. apply lookup_insert_eq.
  - right. exists r, o. rewrite Hs1. repeat split; try done.
    rewrite lookup_insert_ne by done. apply lookup_insert_eq.
  - by destruct C.
  - destruct C; simpl in *; congruence.
Qed.

(** Closing one handle leaves another handle, with another resource, open. *)
Lemma close_keeps_other (s : State) (p q : loc) (h h' : SoundFileHandle) :
  open_handle s p h ->
  open_handle s q h' ->
  p <> q ->
  (forall r, handle_ h = Some r -> handle_ h' <> Some r) ->
  open_handle
    (mkState (delete p (released h (heap s)))
       (log s ++ teardown_calls h ++ [delete_SoundFileHandle p])) q h'.
Proof.
  intros [Hp Hr] [Hq Hr'] Hpq Hdis.
  assert (forall l, l <> p -> handle_ h <> Some l ->
            delete p (released h (heap s)) !! l = heap s !! l) as Hframe.
  { intros l Hlp Hlr. rewrite lookup_delete_ne by done. unfold released.
    destruct (handle_ h) as [r|]; [|done]. rewrite lookup_delete_ne; congruence. }
  assert (handle_ h <> Some q) as Hq'.
  { destruct Hr as [->|(l & o & -> & Ho & Hv & Ht)]; [done|].
    intros [= ->]. rewrite Hq in Ho. injection Ho as <-. by destruct Ht. }
  split; simpl.
  - by rewrite Hframe.
  - destruct Hr' as [|(l & o & Hl & Ho & Hv & Ht)]; [by left|right].
    exists l, o. repeat split; try done. simpl. rewrite Hframe; [done|..].
    + intros ->. rewrite Hp in Ho. injection Ho as <-. by destruct Ht.
    + intros E. by apply (Hdis l).
Qed.

Lemma heap_restore_two (m : gmap loc Obj) (p1 r1 p2 r2 : loc)
    (x1 y1 x2 y2 : Obj) :
  m !! p1 = None -> m !! r1 = None -> p1 <> r1 ->
  <[p1 := x1]> (<[r1 := y1]> m) !! p2 = None ->
  <[p1 := x1]> (<[r1 := y1]> m) !! r2 = None -> p2 <> r2 ->
  let m2 := <[p2 := x2]> (<[r2 := y2]> (<[p1 := x1]> (<[r1 := y1]> m))) in
  delete p2 (delete r2 (delete p1 (delete r1 m2))) = m /\
  delete p1 (delete r1 (delete p2 (delete r2 m2))) = m.
Proof.
  intros Hp1 Hr1 H1 Hp2 Hr2 H2 m2. subst m2.
  apply lookup_insert_None in Hp2 as [Hp2 ?].
  apply lookup_insert_None in Hp2 as [Hp2 ?].
  apply lookup_insert_None in Hr2 as [Hr2 ?].
  apply lookup_insert_None in Hr2 as [Hr2 ?].
  split; apply map_eq; intros i;
    destruct (decide (i = p1)), (decide (i = r1)), (decide (i = p2)),
      (decide (i = r2)); by simplify_map_eq.
Qed.

(** Closing two open handles with different resources, one after the
    other. *)
Lemma close_both (s : State) (p q : loc) (h h' : SoundFileHandle) :
  open_handle s p h ->
  open_handle s q h' ->
  p <> q ->
  (forall r, handle_ h = Some r -> handle_ h' <> Some r) ->
  exists s3 s4,
    soundCloseFile (Some p) s = Done tt s3 /\
    open_handle s3 q h' /\
    soundCloseFile (Some q) s3 = Done tt s4 /\
    heap s4 = delete q (released h' (delete p (released h (heap s)))).
Proof.
  intros Hp Hq Hpq Hdis.
  pose proof (close_keeps_other _ _ _ _ _ Hp Hq Hpq Hdis) as Hq3.
  destruct Hp as [Hp Hr]. eexists _, _.
  split; [by apply release_eq|]. split; [exact Hq3|].
  destruct Hq3 as [Hq3 Hr3]. split; [by apply release_eq|done].
Qed.

Lemma query_handle {A : Type} (g : SoundFileHandle -> A) (s : State) (p : loc)
    (h : SoundFileHandle) :
  heap s !! p = Some (Obj_handle h) ->
  (h' ← deref (Some p); mret (g h')) s = Done (g h) s.
Proof. intros Hp. by rewrite (bind_Done _ _ _ _ _ (deref_handle _ _ _ Hp)). Qed.

(** X9: a handle that [soundOpenFile] returns reads back what it was opened
    with: the error code written is 0 and [soundGetError] gives 0 again,
    [soundGetFileName] gives the file name passed in, and [soundGetFileType]
    gives the code of the format of the name's suffix, which is 1, 2 or 3 and
    never 0. *)
Theorem opened_handle_reads_back (W : World) (file : string) (s s1 : State)
    (p : loc) (code : Z) :
  soundOpenFile W file s = Done (Some p, code) s1 ->
  code = 0 /\
  soundGetError (Some p) s1 = Done 0 s1 /\
  soundGetFileName (Some p) s1 = Done file s1 /\
  soundGetFileType (Some p) s1 = Done (FileType_code (format_by_suffix file)) s1 /\
  1 <= FileType_code (format_by_suffix file) <= 3.
Proof.
  intros H.
  destruct (soundOpenFile_success _ _ _ _ _ _ H) as (_ & _ & _ & _ & _ & -> & _).
  destruct (soundOpenFile_open_handle _ _ _ _ _ _ H)
    as (h & [Hp _] & _ & Hok & Hname & Htype & Hknown).
  unfold soundGetError, soundGetFileName, soundGetFileType.
  rewrite !(query_handle _ _ _ _ Hp).
  unfold error, fileName, type. rewrite Hok, Hname, Htype.
  repeat split; try done; rewrite <- Htype; by destruct (type_ h).
Qed.

Lemma opened_handle_reads_back_witness :
  soundOpenFile example_world "tune.flac" empty_state =
  Done (Some 1%positive, 0) opened_flac_state /\
  soundGetError (Some 1%positive) opened_flac_state = Done 0 opened_flac_state /\
  soundGetFileName (Some 1%positive) opened_flac_state =
  Done "tune.flac"%string opened_flac_state /\
  soundGetFileType (Some 1%positive) opened_flac_state = Done 2 opened_flac_state.
Proof.
  assert (soundOpenFile example_world "tune.flac" empty_state =
          Done (Some 1%positive, 0) opened_flac_state) as E
    by (vm_compute; reflexivity).
  split; [exact E|].
  destruct (opened_handle_reads_back example_world "tune.flac" _ _ _ _ E)
    as (_ & H1 & H2 & H3 & _).
  split; [exact H1|]. split; [exact H2|exact H3].
Defined.

(** X10: when the decoders report values within their types, the metadata
    read through a handle that [soundOpenFile] returned is what the decoder
    reported, normalized: [soundGetInfo] and the three single accessors give
    the decoder's frame count, sample rate and channel count for WAV and
    FLAC, and samples divided by channels, sample rate and channels for
    Vorbis. *)
Theorem opened_handle_metadata (W : World) (file : string) (s s1 : State)
    (p : loc) (code : Z) :
  World_well_formed W ->
  soundOpenFile W file s = Done (Some p, code) s1 ->
  exists m,
    normalized_metadata W (format_by_suffix file) file = Some m /\
    soundGetInfo (Some p) s1 =
    Done (SoundFileInfo.totalFrames m, SoundFileInfo.sampleRate m,
          SoundFileInfo.channels m) s1 /\
    soundGetFrameCount (Some p) s1 = Done (SoundFileInfo.totalFrames m) s1 /\
    soundGetSampleRate (Some p) s1 = Done (SoundFileInfo.sampleRate m) s1 /\
    soundGetChannelCount (Some p) s1 = Done (SoundFileInfo.channels m) s1.
Proof.
  intros Hwf H.
  destruct (soundOpenFile_open_handle _ _ _ _ _ _ H)
    as (h & [Hp _] & _ & Hok & Hname & Htype & Hknown).
  assert (Some (info_ h) = normalized_metadata W (type_ h) file) as Hm.
  { destruct (soundOpenFile_success _ _ _ _ _ _ H)
      as (h2 & r & o & s2 & C2 & _ & Hok2 & _ & _ & _ & _ & _ & _ & Hs1 & _).
    rewrite Hs1, lookup_insert_eq in Hp. injection Hp as <-.
    by eapply constructs_metadata. }
  exists (info_ h). rewrite <- Htype. split; [done|].
  unfold soundGetInfo, soundGetFrameCount, soundGetSampleRate,
    soundGetChannelCount.
  rewrite !(query_handle _ _ _ _ Hp).
  repeat split; try done.
  rewrite (bind_Done _ _ _ _ _ (query_handle _ _ _ _ Hp)).
  rewrite (bind_Done _ _ _ _ _ (query_handle _ _ _ _ Hp)).
  by rewrite (bind_Done _ _ _ _ _ (query_handle _ _ _ _ Hp)).
Qed.

Lemma opened_handle_metadata_witness :
  World_well_formed example_world /\
  soundOpenFile example_world "tune.flac" empty_state =
  Done (Some 1%positive, 0) opened_flac_state /\
  exists m,
    normalized_metadata example_world (format_by_suffix "tune.flac") "tune.flac"
    = Some m /\
    soundGetInfo (Some 1%positive) opened_flac_state =
    Done (SoundFileInfo.totalFrames m, SoundFileInfo.sampleRate m,
          SoundFileInfo.channels m) opened_flac_state /\
    soundGetFrameCount (Some 1%positive) opened_flac_state =
    Done (SoundFileInfo.totalFrames m) opened_flac_state /\
    soundGetSampleRate (Some 1%positive) opened_flac_state =
    Done (SoundFileInfo.sampleRate m) opened_flac_state /\
    soundGetChannelCount (Some 1%positive) opened_flac_state =
    Done (SoundFileInfo.channels m) opened_flac_state.
Proof.
  assert (soundOpenFile example_world "tune.flac" empty_state =
          Done (Some 1%positive, 0) opened_flac_state) as E
    by (vm_compute; reflexivity).
  split; [exact example_world_well_formed|]. split; [exact E|].
  exact (opened_handle_metadata example_world "tune.flac" _ _ _ _
           example_world_well_formed E).
Defined.

Lemma ask_Stop (s : State) (file : ptr) (f : Fault) (q : Query) :
  deref file s = Stop f -> ask q file s = Stop f.
Proof.
  intros Hd.
  destruct q; unfold ask, soundGetFileType, soundGetFileName, soundGetError,
    soundGetFrameCount, soundGetSampleRate, soundGetChannelCount, soundGetInfo;
    cbv beta iota delta [fmap M_fmap mbind M_bind mret M_ret];
    by rewrite !Hd.
Qed.

Lemma deref_dangling (s : State) (l : loc) :
  heap s !! l = None -> deref (Some l) s = Stop InvalidPointer.
Proof. intros H. unfold deref. run. by rewrite H. Qed.

(** X11: the accessors do not test their pointer.  On [nullptr] every one of
    them dereferences null, and on a pointer to nothing, or to something that
    is not a handle, every one of them is an invalid access;
    [soundCloseFile], a [delete], does nothing on [nullptr] but is as invalid
    as they are on a pointer to nothing. *)
Theorem pointers_are_not_checked (s : State) (q : Query) :
  ask q nullptr s = Stop NullDereference /\
  soundCloseFile nullptr s = Done tt s /\
  (forall l, heap s !! l = None ->
             ask q (Some l) s = Stop InvalidPointer /\
             soundCloseFile (Some l) s = Stop InvalidPointer) /\
  (forall l o, heap s !! l = Some o -> (forall h, o <> Obj_handle h) ->
               ask q (Some l) s = Stop InvalidPointer /\
               soundCloseFile (Some l) s = Stop InvalidPointer).
Proof.
  split; [by apply ask_Stop|]. split; [done|]. split.
  - intros l Hl. pose proof (deref_dangling _ _ Hl) as Hd.
    split; [by apply ask_Stop|].
    unfold soundCloseFile, operator_delete_SoundFileHandle.
    cbv beta iota delta [mbind M_bind]. by rewrite Hd.
  - intros l o Hl Hv.
    assert (deref (Some l) s = Stop InvalidPointer) as Hd.
    { unfold deref. run. rewrite Hl. destruct o; try done. by destruct (Hv h). }
    split; [by apply ask_Stop|].
    unfold soundCloseFile, operator_delete_SoundFileHandle.
    cbv beta iota delta [mbind M_bind]. by rewrite Hd.
Qed.

Lemma pointers_are_not_checked_witness :
  heap opened_flac_state !! 7%positive = None /\
  ask Q_info (Some 7%positive) opened_flac_state = Stop InvalidPointer /\
  soundCloseFile (Some 7%positive) opened_flac_state = Stop InvalidPointer.
Proof.
  assert (heap opened_flac_state !! 7%positive = None) as Hl
    by (vm_compute; reflexivity).
  split; [exact Hl|].
  exact (proj1 (proj2 (proj2 (pointers_are_not_checked opened_flac_state Q_info)))
           7%positive Hl).
Defined.

(** X12: [soundCloseFile] leaves its pointer dangling.  After it has
    released a handle, the handle and its decoder object are gone from the
    heap, every accessor on the same pointer is an invalid access, and so is
    a second [soundCloseFile]. *)
Theorem closed_handle_is_gone (s : State) (p : loc) (h : SoundFileHandle) :
  open_handle s p h ->
  exists s',
    soundCloseFile (Some p) s = Done tt s' /\
    heap s' !! p = None /\
    (forall r, handle_ h = Some r -> heap s' !! r = None) /\
    (forall q, ask q (Some p) s' = Stop InvalidPointer) /\
    soundCloseFile (Some p) s' = Stop InvalidPointer.
Proof.
  intros [Hp Hr]. eexists. split; [by apply release_eq|]. simpl.
  assert (delete p (released h (heap s)) !! p = None) as Hgone
    by apply lookup_delete_eq.
  split; [done|]. split; [|split].
  - intros r Hh. unfold released. rewrite Hh.
    destruct (decide (p = r)) as [->|Hne]; [apply lookup_delete_eq|].
    rewrite lookup_delete_ne by done. apply lookup_delete_eq.
  - intros q. apply ask_Stop. by apply deref_dangling.
  - unfold soundCloseFile, operator_delete_SoundFileHandle.
    cbv beta iota delta [mbind M_bind]. by rewrite deref_dangling.
Qed.

Lemma opened_flac_open_handle : open_handle opened_flac_state 1%positive opened_flac.
Proof.
  split; [vm_compute; reflexivity|]. right.
  exists 2%positive, (Live_drflac (drflac.mk 1000 44100 2)).
  repeat split; try discriminate; vm_compute; reflexivity.
Defined.

Lemma closed_handle_is_gone_witness :
  open_handle opened_flac_state 1%positive opened_flac /\
  exists s',
    soundCloseFile (Some 1%positive) opened_flac_state = Done tt s' /\
    heap s' !! 1%positive = None /\
    (forall r, handle_ opened_flac = Some r -> heap s' !! r = None) /\
    (forall q, ask q (Some 1%positive) s' = Stop InvalidPointer) /\
    soundCloseFile (Some 1%positive) s' = Stop InvalidPointer.
Proof.
  split; [exact opened_flac_open_handle|].
  exact (closed_handle_is_gone _ _ _ opened_flac_open_handle).
Defined.

(** X13: [soundOpenFile] touches nothing that was there before: every heap
    cell keeps its content, whether the open succeeds or not, so a handle
    that was open before the call is open after it and answers every query as
    before; a failed open leaves the whole heap as it was. *)
Theorem open_keeps_other_handles (W : World) (file : string) (s s1 : State)
    (p : ptr) (code : Z) :
  soundOpenFile W file s = Done (p, code) s1 ->
  (forall l o, heap s !! l = Some o -> heap s1 !! l = Some o) /\
  (forall q h, open_handle s q h ->
               open_handle s1 q h /\ p <> Some q /\
               forall qu, ask qu (Some q) s1 = Done (answer h qu) s1) /\
  (p = nullptr -> heap s1 = heap s).
Proof.
  intros H. pose proof (soundOpenFile_subseteq _ _ _ _ _ _ H) as Hsub.
  split; [|split].
  - intros l o Hl. by eapply lookup_weaken.
  - intros q h Hq. pose proof (open_handle_weaken _ _ _ _ Hq Hsub) as Hq1.
    split; [done|]. split.
    + intros ->.
      destruct (soundOpenFile_success _ _ _ _ _ _ H)
        as (_ & _ & _ & _ & _ & _ & _ & _ & Hfree & _).
      destruct Hq as [Hq _]. congruence.
    + intros qu. apply ask_answer. by destruct Hq1.
  - intros ->. by destruct (soundOpenFile_failure _ _ _ _ _ H).
Qed.

Lemma open_keeps_other_handles_witness :
  soundOpenFile example_world "corrupt.flac" opened_flac_state =
  Done (nullptr, 3)
       (mkState (heap opened_flac_state)
          (log opened_flac_state
             ++ [new_SoundFileHandle 3%positive; call_drflac_open_file nullptr;
                 delete_SoundFileHandle 3%positive])) /\
  open_handle opened_flac_state 1%positive opened_flac /\
  open_handle
    (mkState (heap opened_flac_state)
       (log opened_flac_state
          ++ [new_SoundFileHandle 3%positive; call_drflac_open_file nullptr;
              delete_SoundFileHandle 3%positive])) 1%positive opened_flac.
Proof.
  assert (soundOpenFile example_world "corrupt.flac" opened_flac_state =
          Done (nullptr, 3)
            (mkState (heap opened_flac_state)
               (log opened_flac_state
                  ++ [new_SoundFileHandle 3%positive;
                      call_drflac_open_file nullptr;
                      delete_SoundFileHandle 3%positive]))) as E
    by (vm_compute; reflexivity).
  split; [exact E|]. split; [exact opened_flac_open_handle|].
  exact (proj1 (proj1 (proj2 (open_keeps_other_handles _ _ _ _ _ _ E))
                  _ _ opened_flac_open_handle)).
Defined.

(** X14: two handles opened one after the other share nothing.  They have
    different addresses and different decoder objects, also when they are for
    the same file; closing either leaves the other open, answering every
    query as before; and once both are closed, in either order, the heap is
    what it was before the first open. *)
Theorem two_handles_are_independent (W : World) (file1 file2 : string)
    (s s1 s2 : State) (p1 p2 : loc) (code1 code2 : Z) :
  soundOpenFile W file1 s = Done (Some p1, code1) s1 ->
  soundOpenFile W file2 s1 = Done (Some p2, code2) s2 ->
  p1 <> p2 /\
  exists h1 h2,
    open_handle s2 p1 h1 /\ open_handle s2 p2 h2 /\
    (forall r, handle_ h1 = Some r -> handle_ h2 <> Some r) /\
    (exists s3 s4,
       soundCloseFile (Some p1) s2 = Done tt s3 /\
       (forall q, ask q (Some p2) s3 = Done (answer h2 q) s3) /\
       soundCloseFile (Some p2) s3 = Done tt s4 /\
       heap s4 = heap s) /\
    (exists s3 s4,
       soundCloseFile (Some p2) s2 = Done tt s3 /\
       (forall q, ask q (Some p1) s3 = Done (answer h1 q) s3) /\
       soundCloseFile (Some p1) s3 = Done tt s4 /\
       heap s4 = heap s).
Proof.
  intros H1 H2.
  pose proof (soundOpenFile_subseteq _ _ _ _ _ _ H2) as Hsub.
  destruct (soundOpenFile_success _ _ _ _ _ _ H1)
    as (h1 & r1 & o1 & _ & _ & _ & _ & Hh1 & Hp1 & Hr1 & Hne1 & Hv1 & Ht1
        & Hs1 & _).
  destruct (soundOpenFile_success _ _ _ _ _ _ H2)
    as (h2 & r2 & o2 & _ & _ & _ & _ & Hh2 & Hp2 & Hr2 & Hne2 & Hv2 & Ht2
        & Hs2 & _).
  assert (open_handle s1 p1 h1) as Ho1.
  { split; [rewrite Hs1; apply lookup_insert_eq|]. right. exists r1, o1.
    rewrite Hs1, lookup_insert_ne by done. by rewrite lookup_insert_eq. }
  apply (open_handle_weaken _ _ _ _ Ho1) in Hsub as Ho12.
  assert (open_handle s2 p2 h2) as Ho2.
  { split; [rewrite Hs2; apply lookup_insert_eq|]. right. exists r2, o2.
    rewrite Hs2, lookup_insert_ne by done. by rewrite lookup_insert_eq. }
  assert (p1 <> p2) as Hp12.
  { intros ->. destruct Ho1 as [Ho1 _]. congruence. }
  assert (r1 <> r2) as Hr12.
  { intros ->. rewrite Hs1, lookup_insert_ne, lookup_insert_eq in Hr2 by done.
    discriminate. }
  rewrite Hs1 in Hp2, Hr2.
  destruct (heap_restore_two (heap s) p1 r1 p2 r2 (Obj_handle h1) o1
              (Obj_handle h2) o2 Hp1 Hr1 Hne1 Hp2 Hr2 Hne2) as [HA HB].
  rewrite <- Hs1, <- Hs2 in HA, HB.
  split; [done|]. exists h1, h2. split; [done|]. split; [done|].
  split; [by intros r; rewrite Hh1, Hh2; intros [= <-] [= ->]|]. split.
  - destruct (close_both s2 p1 p2 h1 h2 Ho12 Ho2 Hp12) as (s3 & s4 & Hc1 & Ho3 & Hc2 & Hheap).
    { intros r. rewrite Hh1, Hh2. by intros [= <-] [= ->]. }
    exists s3, s4. split; [done|]. split.
    { intros q. apply ask_answer. by destruct Ho3. }
    split; [done|]. rewrite Hheap. unfold released. by rewrite Hh1, Hh2.
  - destruct (close_both s2 p2 p1 h2 h1 Ho2 Ho12 (not_eq_sym Hp12))
      as (s3 & s4 & Hc1 & Ho3 & Hc2 & Hheap).
    { intros r. rewrite Hh1, Hh2. by intros [= <-] [= ->]. }
    exists s3, s4. split; [done|]. split.
    { intros q. apply ask_answer. by destruct Ho3. }
    split; [done|]. rewrite Hheap. unfold released. by rewrite Hh1, Hh2.
Qed.

Lemma two_handles_are_independent_witness :
  soundOpenFile example_world "tune.flac" empty_state =
  Done (Some 1%positive, 0) opened_flac_state /\
  soundOpenFile example_world "tune.flac" opened_flac_state =
  Done (Some 3%positive, 0)
       (mkState
          (<[3%positive :=
               Obj_handle (mkHandle TYPE_FLAC "tune.flac" (Some 4%positive)
                             (SoundFileInfo.mk 1000 44100 2) NO_ERROR)]>
             (<[4%positive := Live_drflac (drflac.mk 1000 44100 2)]>
                (heap opened_flac_state)))
          (log opened_flac_state
             ++ [new_SoundFileHandle 3%positive;
                 call_drflac_open_file (Some 4%positive)])) /\
  1%positive <> 3%positive.
Proof.
  assert (soundOpenFile example_world "tune.flac" empty_state =
          Done (Some 1%positive, 0) opened_flac_state) as E1
    by (vm_compute; reflexivity).
  assert (soundOpenFile example_world "tune.flac" opened_flac_state =
          Done (Some 3%positive, 0)
            (mkState
               (<[3%positive :=
                    Obj_handle (mkHandle TYPE_FLAC "tune.flac" (Some 4%positive)
                                  (SoundFileInfo.mk 1000 44100 2) NO_ERROR)]>
                  (<[4%positive := Live_drflac (drflac.mk 1000 44100 2)]>
                     (heap opened_flac_state)))
               (log opened_flac_state
                  ++ [new_SoundFileHandle 3%positive;
                      call_drflac_open_file (Some 4%positive)]))) as E2
    by (vm_compute; reflexivity).
  split; [exact E1|]. split; [exact E2|].
  exact (proj1 (two_handles_are_independent _ _ _ _ _ _ _ _ _ _ E1 E2)).
Defined.

(** X15: what the caller of [soundOpenFile] sees is decided by the first
    check that fails.  The code written is that of the first failure in the
    order file access, suffix, decoder (0 when none fails), and when a check
    fails the call does return: a null pointer, that code, and the heap as it
    was, with the decoder called only if both earlier checks passed. *)
Theorem soundOpenFile_reports_first_failure (W : World) (file : string)
    (s : State) :
  (forall p code s1,
     soundOpenFile W file s = Done (p, code) s1 ->
     code = SoundError_code (first_failure W file)) /\
  (first_failure W file <> NO_ERROR ->
   exists s1 calls,
     soundOpenFile W file s =
     Done (nullptr, SoundError_code (first_failure W file)) s1 /\
     heap s1 = heap s /\
     log s1 = log s ++ [new_SoundFileHandle (fresh (dom (heap s)))] ++ calls
                ++ [delete_SoundFileHandle (fresh (dom (heap s)))] /\
     (first_failure W file <> INVALID_FILE -> calls = [])).
Proof.
  split.
  - intros p code s1 H.
    destruct (SoundFileHandle_ctor W file (under_construction s))
      as [h s1'|f] eqn:C; [|by rewrite (soundOpenFile_Stop _ _ _ _ C) in H].
    rewrite (soundOpenFile_eq _ _ _ _ _ C) in H. apply ctor_constructs in C.
    unfold error in H. rewrite (first_failure_constructs _ _ _ _ _ C) in H.
    by destruct (hasError h); injection H as <- <- <-.
  - intros Hf.
    destruct (ctor_cases W file (under_construction s))
      as [(h & s1' & C)|(v & Ho & Ht & Hd & _)].
    + pose proof (first_failure_constructs _ _ _ _ _ C) as He.
      assert (hasError h = true) as Hh.
      { unfold hasError. rewrite He. by case_bool_decide. }
      rewrite (soundOpenFile_eq _ _ _ _ _ (constructs_ctor _ _ _ _ _ C)), Hh.
      unfold error. rewrite He.
      assert (exists calls,
                log s1' = log (under_construction s) ++ calls /\
                (first_failure W file <> INVALID_FILE -> calls = []))
        as (calls & Hlog & Hcalls).
      { rewrite <- He.
        destruct C; subst; simpl in *;
          try (exists []; by rewrite app_nil_r);
          try done; eexists; (split; [reflexivity|]); by intros []. }
      eexists _, calls. split; [reflexivity|]. split; [done|]. split; [|done].
      simpl. rewrite Hlog. unfold under_construction. simpl.
      by rewrite <- !app_assoc.
    + destruct Hf. unfold first_failure. by rewrite Ho, Ht; simpl; rewrite Hd.
Qed.

Lemma soundOpenFile_reports_first_failure_witness :
  first_failure example_world "missing.wav" <> NO_ERROR /\
  exists s1 calls,
    soundOpenFile example_world "missing.wav" empty_state =
    Done (nullptr, SoundError_code (first_failure example_world "missing.wav")) s1 /\
    heap s1 = heap empty_state /\
    log s1 = log empty_state
               ++ [new_SoundFileHandle (fresh (dom (heap empty_state)))] ++ calls
               ++ [delete_SoundFileHandle (fresh (dom (heap empty_state)))] /\
    (first_failure example_world "missing.wav" <> INVALID_FILE -> calls = []).
Proof.
  assert (first_failure example_world "missing.wav" <> NO_ERROR) as Hf
    by discriminate.
  split; [exact Hf|].
  exact (proj2 (soundOpenFile_reports_first_failure example_world "missing.wav"
                  empty_state) Hf).
Defined.
